(** * twitter_to_bluesky.py: bookmarking and filtering of forwarded tweets

    A shallow embedding of the class [TwitterToBluesky] of
    [twitter_to_bluesky.py]: the filter [is_mention_or_retweet], the
    bookmark file ([_load_last_tweet_ids], [_save_last_tweet_ids]), the
    adapters [get_user_tweets] and [post_to_bluesky], the per-account pass
    [process_new_tweets] and the loops [run_once] and [run].

    Conventions.
    - The text of a tweet and the URLs listed with it are [PyStr.text]:
      a Python [str] as the list of its code points, so that [length] is
      Python's [len] and [PyStr.strip] removes what [str.strip()] removes,
      for every text.  A literal of the source stands for its code points.
    - Account names and recorded ids are [string]s; an id is written by
      [str(tweet.id)], [tweet.id] being a Python [int], hence a [Z];
      [String.ltb] is Python's [<] on them (lexicographic on code points).
    - [self.last_tweet_ids] is a [gmap string string]: the bookmark file is
      written by [_save_last_tweet_ids] only, from values [str(tweet.id)].
    - The two vendor clients and the file system are outside the program.
      Their answers are given by a [world], asked at a given time; the time
      of a call is the number of external calls made before it, all of them
      recorded in the [log] of the state. *)

From Stdlib Require Import ZArith String Ascii List Lia DecimalString
  DecimalPos DecimalN.
From stdpp Require Import base option list gmap strings.

Local Open Scope string_scope.
Local Open Scope list_scope.

(** ** Python string operations used by the source *)

Module PyStr.

(** A Python [str]: its code points, in order. *)
Definition text := list N.

(** A literal of the source (all its characters are below 128). *)
Definition lit (s : string) : text :=
  map N_of_ascii (list_ascii_of_string s).

(** The characters [str.strip()] removes: U+0009-000D, U+001C-0020, U+0085,
    U+00A0, U+1680, U+2000-200A, U+2028, U+2029, U+202F, U+205F, U+3000. *)
Definition isspace (c : N) : bool :=
  ((9 <=? c) && (c <=? 13) || (28 <=? c) && (c <=? 32)
   || (c =? 133) || (c =? 160) || (c =? 5760)
   || (8192 <=? c) && (c <=? 8202)
   || (c =? 8232) || (c =? 8233) || (c =? 8239) || (c =? 8287)
   || (c =? 12288))%N.

Fixpoint lstrip (s : text) : text :=
  match s with
  | [] => []
  | c :: s' => if isspace c then lstrip s' else s
  end.

Fixpoint rstrip (s : text) : text :=
  match s with
  | [] => []
  | c :: s' =>
      match rstrip s' with
      | [] => if isspace c then [] else [c]
      | r => c :: r
      end
  end.

(** [s.strip()] *)
Definition strip (s : text) : text := rstrip (lstrip s).

Fixpoint prefix (p s : text) : bool :=
  match p, s with
  | [], _ => true
  | _ :: _, [] => false
  | a :: p', b :: s' => (a =? b)%N && prefix p' s'
  end.

(** [s.startswith(p)] *)
Definition startswith (s p : text) : bool := prefix p s.

(** [p in s] *)
Fixpoint contains (p s : text) : bool :=
  prefix p s ||
  match s with
  | [] => false
  | _ :: s' => contains p s'
  end.

(** [s.replace(old, new)] for a non-empty [old]: the occurrences are
    taken from the left and do not overlap; [skip] counts the characters
    of the current occurrence still to be dropped. *)
Fixpoint replace_from (old new : text) (skip : nat) (s : text) : text :=
  match s with
  | [] => []
  | c :: s' =>
      match skip with
      | S k => replace_from old new k s'
      | O =>
          if prefix old s
          then new ++ replace_from old new (length old - 1) s'
          else c :: replace_from old new 0 s'
      end
  end.

(** [s.replace("", new)]: [new] before every character and at the end. *)
Fixpoint intersperse (new s : text) : text :=
  match s with
  | [] => new
  | c :: s' => new ++ c :: intersperse new s'
  end.

(** [s.replace(old, new)] *)
Definition replace (s old new : text) : text :=
  match old with
  | [] => intersperse new s
  | _ :: _ => replace_from old new 0 s
  end.

(** [str(n)] for an [int] *)
Definition str (n : Z) : string := NilZero.string_of_int (Z.to_int n).

(** [a > b] on [str] *)
Definition gt (a b : string) : bool := String.ltb b a.

End PyStr.

Coercion PyStr.lit : string >-> PyStr.text.

(** ** Tweets and the filter *)

(** The fields of a tweepy status the program reads.  [retweeted_status]
    is [hasattr(tweet, 'retweeted_status')]; [entities_urls] lists
    [url['url']] for the entries of [tweet.entities.get('urls', [])]. *)
Record tweet := {
  tweet_id : Z;
  full_text : PyStr.text;
  retweeted_status : bool;
  entities_urls : list PyStr.text
}.

Definition retweet_rule (t : tweet) : bool :=
  retweeted_status t || PyStr.startswith (full_text t) "RT @".

Definition mention_rule (t : tweet) : bool :=
  PyStr.startswith (PyStr.strip (full_text t)) "@".

Definition has_source_link (t : tweet) : bool :=
  PyStr.contains "https://twitter.com/" (full_text t)
  || PyStr.contains "https://x.com/" (full_text t).

(** The loop of lines 246-248: every listed URL is replaced in turn. *)
Definition text_without_url (t : tweet) : PyStr.text :=
  fold_left (fun acc url => PyStr.replace acc url "") (entities_urls t)
            (full_text t).

Definition quote_rule (t : tweet) : bool :=
  has_source_link t
  && (length (PyStr.strip (text_without_url t)) <? 10)%nat.

Definition is_mention_or_retweet (t : tweet) : bool :=
  if retweet_rule t then true
  else if mention_rule t then true
  else if has_source_link t then
    if (length (PyStr.strip (text_without_url t)) <? 10)%nat
    then true else false
  else false.

(** ** Exceptions, the outside world and the state *)

(** The exceptions the modelled calls can raise; all of them derive from
    [Exception], which is what every handler of the source catches. *)
Inductive exn := OSError | JSONDecodeError | TweepyException | AtprotoError.

Inductive outcome (A : Type) :=
| Returned (a : A)
| Raised (e : exn).
Arguments Returned {A} a.
Arguments Raised {A} e.

(** [try: body / except Exception as e: handler e] *)
Definition try_except {A} (body : outcome A) (handler : exn -> outcome A)
  : outcome A :=
  match body with
  | Returned a => Returned a
  | Raised e => handler e
  end.

(** What [last_tweet_id.json] holds. *)
Inductive file_state :=
| FileMissing                            (* os.path.exists is False *)
| FileUnreadable                         (* open(.., 'r') raises *)
| FileCorrupt                            (* json.load raises *)
| FileJson (m : gmap string string).     (* a JSON object of strings *)

(** What happens to [with open(.., 'w') as file: json.dump(..)]. *)
Inductive save_outcome :=
| Saved                                  (* the file now holds the mapping *)
| OpenFailed                             (* open raised, the file is as before *)
| DumpFailed.                            (* truncated by open, then dump raised *)

(** The answers of the outside world, by time of call. *)
Record world := {
  user_timeline : nat -> string -> Z -> outcome (list tweet);
  send_post : nat -> PyStr.text -> outcome unit;
  write_file : nat -> save_outcome
}.

Inductive event :=
| EvTimeline (screen_name : string) (count : Z) (r : outcome (list tweet))
| EvSendPost (text : PyStr.text) (success : bool)
| EvSave (m : gmap string string) (r : save_outcome).

Record state := {
  last_tweet_ids : gmap string string;   (* self.last_tweet_ids *)
  last_tweet_file : file_state;          (* the file at self.last_tweet_file *)
  log : list event                       (* the external calls made so far *)
}.

(** The part of [self.config] the pass and the loops read, for a
    configuration of the documented shape: [monitor] is absent or a
    mapping whose [max_tweets_per_check] is absent ([None], read as 10) or
    an integer, and [target_users] is a list of mappings, an entry being
    [user.get('username')].  A null [monitor] block, a null
    [max_tweets_per_check] and an entry that is no mapping are not
    configurations of this type. *)
Record config := {
  max_tweets_per_check : option Z;
  target_users : list (option string)
}.

Definition now (st : state) : nat := length (log st).

Definition record (ev : event) (st : state) : state :=
  {| last_tweet_ids := last_tweet_ids st;
     last_tweet_file := last_tweet_file st;
     log := log st ++ [ev] |}.

(** [self.last_tweet_ids[username] = v] *)
Definition set_last_tweet_id (username v : string) (st : state) : state :=
  {| last_tweet_ids := <[username := v]> (last_tweet_ids st);
     last_tweet_file := last_tweet_file st;
     log := log st |}.

(** ** The bookmark file *)

(** The body of the [try] of [_load_last_tweet_ids]. *)
Definition read_last_tweet_file (f : file_state)
  : outcome (gmap string string) :=
  match f with
  | FileMissing => Returned ∅
  | FileUnreadable => Raised OSError
  | FileCorrupt => Raised JSONDecodeError
  | FileJson m => Returned m
  end.

Definition _load_last_tweet_ids (f : file_state)
  : outcome (gmap string string) :=
  try_except (read_last_tweet_file f) (fun _ => Returned ∅).

Definition file_after_save (r : save_outcome) (m : gmap string string)
    (f : file_state) : file_state :=
  match r with
  | Saved => FileJson m
  | OpenFailed => f
  | DumpFailed => FileCorrupt
  end.

(** The handler of [_save_last_tweet_ids] only logs: nothing is raised. *)
Definition _save_last_tweet_ids (w : world) (st : state) : state :=
  let r := write_file w (now st) in
  {| last_tweet_ids := last_tweet_ids st;
     last_tweet_file :=
       file_after_save r (last_tweet_ids st) (last_tweet_file st);
     log := log st ++ [EvSave (last_tweet_ids st) r] |}.

(** ** The adapters *)

Definition get_user_tweets (w : world) (st : state) (username : string)
    (count : Z) : list tweet * state :=
  let r := user_timeline w (now st) username count in
  (match try_except r (fun _ => Returned []) with
   | Returned tweets => tweets
   | Raised _ => []
   end,
   record (EvTimeline username count r) st).

Definition post_to_bluesky (w : world) (st : state) (text : PyStr.text)
  : bool * state :=
  let success :=
    match send_post w (now st) text with
    | Returned _ => true
    | Raised _ => false
    end in
  (success, record (EvSendPost text success) st).

(** ** One pass over one account *)

(** Lines 302-310.  [if last_tweet_id:] holds for a non-empty string only. *)
Definition select_new_tweets (last_tweet_id : option string)
    (tweets : list tweet) : list tweet :=
  match last_tweet_id with
  | Some (String _ _ as last) =>
      List.filter (fun t => PyStr.gt (PyStr.str (tweet_id t)) last) tweets
  | _ =>
      match tweets with
      | [] => []
      | first :: _ => [first]
      end
  end.

(** Line 313. *)
Definition filter_tweets (new_tweets : list tweet) : list tweet :=
  List.filter (fun t => negb (is_mention_or_retweet t)) new_tweets.

(** The loop of lines 327-335. *)
Fixpoint post_all (w : world) (username : string) (filtered : list tweet)
    (processed_count : nat) (st : state) : nat * state :=
  match filtered with
  | [] => (processed_count, st)
  | t :: rest =>
      let '(success, st1) := post_to_bluesky w st (full_text t) in
      let processed_count1 :=
        if success then S processed_count else processed_count in
      let st2 := set_last_tweet_id username (PyStr.str (tweet_id t)) st1 in
      post_all w username rest processed_count1 st2
  end.

(** Lines 289-345.  The adapters and the save catch what the outside world
    raises, so nothing reaches the handler of lines 343-345.  A fetch that
    raised and a fetch that returned no tweet both end at line 299. *)
Definition process_new_tweets (w : world) (cfg : config) (st : state)
    (username : string) : nat * state :=
  let last_tweet_id := last_tweet_ids st !! username in
  let max_tweets := default 10%Z (max_tweets_per_check cfg) in
  let '(tweets, st1) := get_user_tweets w st username max_tweets in
  match tweets with
  | [] => (0, st1)
  | _ :: _ =>
      let new_tweets := select_new_tweets last_tweet_id tweets in
      let filtered_tweets := filter_tweets new_tweets in
      match filtered_tweets with
      | [] => (0, st1)
      | _ :: _ =>
          let '(processed_count, st2) :=
            post_all w username filtered_tweets 0 st1 in
          (processed_count, _save_last_tweet_ids w st2)
      end
  end.

(** ** The loops *)

(** The [for user in target_users] loop shared by [run] and [run_once]. *)
Fixpoint for_each_user (w : world) (cfg : config)
    (users : list (option string)) (total_processed : nat) (st : state)
  : nat * state :=
  match users with
  | [] => (total_processed, st)
  | Some (String _ _ as username) :: rest =>
      let '(processed_count, st1) := process_new_tweets w cfg st username in
      for_each_user w cfg rest (total_processed + processed_count) st1
  | _ :: rest => for_each_user w cfg rest total_processed st
  end.

Definition run_once (w : world) (cfg : config) (st : state) : state :=
  match target_users cfg with
  | [] => st
  | users => snd (for_each_user w cfg users 0 st)
  end.

(** [cycles] turns of the [while True] loop of [run]. *)
Fixpoint run (cycles : nat) (w : world) (cfg : config) (st : state) : state :=
  match cycles with
  | O => st
  | S n => run n w cfg (run_once w cfg st)
  end.

(** The object after [__init__] (credentials accepted), given the file;
    [_load_last_tweet_ids] has caught whatever reading the file raised. *)
Definition init (f : file_state) : state :=
  {| last_tweet_ids :=
       match _load_last_tweet_ids f with
       | Returned m => m
       | Raised _ => ∅
       end;
     last_tweet_file := f;
     log := [] |}.

(** ** Reading the log *)

(** The texts handed to the publish adapter, in call order. *)
Fixpoint sent_texts (l : list event) : list PyStr.text :=
  match l with
  | [] => []
  | EvSendPost text _ :: l' => text :: sent_texts l'
  | _ :: l' => sent_texts l'
  end.

(** The texts that were published (the call returned). *)
Fixpoint published_texts (l : list event) : list PyStr.text :=
  match l with
  | [] => []
  | EvSendPost text true :: l' => text :: published_texts l'
  | _ :: l' => published_texts l'
  end.

(** The mappings handed to the bookmark file, in call order. *)
Fixpoint saves (l : list event) : list (gmap string string) :=
  match l with
  | [] => []
  | EvSave m _ :: l' => m :: saves l'
  | _ :: l' => saves l'
  end.

(** ** The stages of a pass, named *)

(** The [count] handed to the fetch adapter (line 294). *)
Definition max_tweets (cfg : config) : Z :=
  default 10%Z (max_tweets_per_check cfg).

(** What [get_user_tweets] hands to the pass. *)
Definition fetched (w : world) (cfg : config) (st : state) (username : string)
  : list tweet :=
  fst (get_user_tweets w st username (max_tweets cfg)).

(** The state in which the loop starts: the fetch is in the log. *)
Definition after_fetch (w : world) (cfg : config) (st : state)
    (username : string) : state :=
  snd (get_user_tweets w st username (max_tweets cfg)).

(** [new_tweets] of the pass. *)
Definition selected (w : world) (cfg : config) (st : state) (username : string)
  : list tweet :=
  select_new_tweets (last_tweet_ids st !! username) (fetched w cfg st username).

(** [filtered_tweets] of the pass. *)
Definition processed (w : world) (cfg : config) (st : state)
    (username : string) : list tweet :=
  filter_tweets (selected w cfg st username).

(** Whether the call made for [t] in state [st] returns. *)
Definition posted (w : world) (st : state) (t : tweet) : bool :=
  fst (post_to_bluesky w st (full_text t)).

(** The state after the turn of the loop of lines 327-335 for [t]. *)
Definition after_turn (w : world) (username : string) (st : state)
    (t : tweet) : state :=
  set_last_tweet_id username (PyStr.str (tweet_id t))
    (snd (post_to_bluesky w st (full_text t))).

(** The order in which the source platform hands out a timeline: every
    tweet is newer (has a greater id) than the tweets after it. *)
Fixpoint newest_first (tweets : list tweet) : bool :=
  match tweets with
  | [] => true
  | t :: rest =>
      forallb (fun t' => (tweet_id t' <? tweet_id t)%Z) rest
      && newest_first rest
  end.

(** Ascending id order. *)
Fixpoint oldest_first (tweets : list tweet) : bool :=
  match tweets with
  | [] => true
  | t :: rest =>
      forallb (fun t' => (tweet_id t <? tweet_id t')%Z) rest
      && oldest_first rest
  end.

(** ** Sample data *)

Module Sample.

Definition plain (i : Z) (text : PyStr.text) : tweet :=
  {| tweet_id := i; full_text := text;
     retweeted_status := false; entities_urls := [] |}.

Definition t4 : tweet := plain 4 "four".
Definition t5 : tweet := plain 5 "five".
Definition t6 : tweet := plain 6 "six".
Definition t7 : tweet := plain 7 "seven".
Definition reply : tweet := plain 8 "@bob thanks!".

(** "konnichiwa" in hiragana: U+3053 U+3093 U+306B U+3061 U+306F. *)
Definition konnichiwa : PyStr.text :=
  [12371; 12435; 12395; 12385; 12399]%N.

Definition cfg : config :=
  {| max_tweets_per_check := None; target_users := [Some "alice"] |}.

(** The object of a process whose bookmark file holds "5" for alice. *)
Definition at5 : state := init (FileJson {["alice" := "5"]}).

(** A world in which every call succeeds and the timeline is [tweets]. *)
Definition calm (tweets : list tweet) : world :=
  {| user_timeline := fun _ _ _ => Returned tweets;
     send_post := fun _ _ => Returned tt;
     write_file := fun _ => Saved |}.

(** As [calm], but publishing the text "six" fails. *)
Definition six_fails (tweets : list tweet) : world :=
  {| user_timeline := fun _ _ _ => Returned tweets;
     send_post := fun _ text =>
       if bool_decide (text = PyStr.lit "six")
       then Raised AtprotoError else Returned tt;
     write_file := fun _ => Saved |}.

(** As [six_fails], but the bookmark file cannot be opened for writing. *)
Definition six_fails_readonly (tweets : list tweet) : world :=
  {| user_timeline := fun _ _ _ => Returned tweets;
     send_post := fun _ text =>
       if bool_decide (text = PyStr.lit "six")
       then Raised AtprotoError else Returned tt;
     write_file := fun _ => OpenFailed |}.

(** A world whose timeline is down. *)
Definition offline : world :=
  {| user_timeline := fun _ _ _ => Raised TweepyException;
     send_post := fun _ _ => Returned tt;
     write_file := fun _ => Saved |}.

(** The account has one tweet at the first poll and two more from the
    second poll on; the timeline is handed out newest first. *)
Definition growing : world :=
  {| user_timeline := fun time _ _ =>
       if (time =? 0)%nat then Returned [t5] else Returned [t7; t6; t5];
     send_post := fun _ _ => Returned tt;
     write_file := fun _ => Saved |}.

End Sample.

(** ** What a cycle asks and what a restart would see *)

(** The entries of [target_users] the loops process: those with a
    non-empty [username] (lines 369-372 and 408-411). *)
Fixpoint valid_usernames (users : list (option string)) : list string :=
  match users with
  | [] => []
  | Some (String c name) :: rest => String c name :: valid_usernames rest
  | _ :: rest => valid_usernames rest
  end.

(** The calls of the fetch adapter, in call order. *)
Fixpoint timeline_calls (l : list event) : list (string * Z) :=
  match l with
  | [] => []
  | EvTimeline screen_name count _ :: l' =>
      (screen_name, count) :: timeline_calls l'
  | _ :: l' => timeline_calls l'
  end.

(** A process started now would load the mapping this one holds. *)
Definition in_sync (st : state) : Prop :=
  _load_last_tweet_ids (last_tweet_file st) = Returned (last_tweet_ids st).

(** [if last_tweet_id:] of line 303, for the entry of [username]. *)
Definition has_bookmark (st : state) (username : string) : bool :=
  match last_tweet_ids st !! username with
  | Some (String _ _) => true
  | _ => false
  end.

(** ** Decimal digits, to read [str(tweet.id)] *)

Fixpoint digits (d : Decimal.uint) : list N :=
  match d with
  | Decimal.Nil => []
  | Decimal.D0 l => 0%N :: digits l
  | Decimal.D1 l => 1%N :: digits l
  | Decimal.D2 l => 2%N :: digits l
  | Decimal.D3 l => 3%N :: digits l
  | Decimal.D4 l => 4%N :: digits l
  | Decimal.D5 l => 5%N :: digits l
  | Decimal.D6 l => 6%N :: digits l
  | Decimal.D7 l => 7%N :: digits l
  | Decimal.D8 l => 8%N :: digits l
  | Decimal.D9 l => 9%N :: digits l
  end.

Definition digit_char (k : N) : ascii := ascii_of_N (48 + k).

Fixpoint digits_string (l : list N) : string :=
  match l with
  | [] => EmptyString
  | k :: l' => String (digit_char k) (digits_string l')
  end.

(** The number a digit list denotes, most significant digit first. *)
Fixpoint horner (l : list N) (acc : N) : N :=
  match l with
  | [] => acc
  | k :: l' => horner l' (k + 10 * acc)
  end.

(** ** Construction of the object (lines 34-165) *)

(** A value of the configuration as the credential tests see it: what
    [section.get(key)] returns.  [YamlNull] is [None] (the key is absent or
    null); for a value that is neither null nor a string only its
    truthiness matters. *)
Inductive yaml_value :=
| YamlNull
| YamlStr (s : string)
| YamlOther (true_in_if : bool).

(** What [_authenticate_twitter] and [_authenticate_bluesky] read of a
    section that is a mapping. *)
Record twitter_keys := {
  api_key : yaml_value;
  api_secret : yaml_value;
  access_token : yaml_value;
  access_token_secret : yaml_value
}.

Record bluesky_keys := {
  bluesky_username : yaml_value;
  bluesky_password : yaml_value
}.

(** [self.config] when it is a mapping.  A section is
    [self.config.get(section, {})]: [None] when the section is present
    but is no mapping (null, say), so that [.get] on it raises
    [AttributeError]; an absent section reads as a mapping without
    keys. *)
Record settings := {
  twitter : option twitter_keys;
  bluesky : option bluesky_keys;
  interval_minutes : option Z;
  polling : config
}.

(** Lines 80-97. *)
Definition default_config : settings :=
  {| twitter := Some {| api_key := YamlStr ""; api_secret := YamlStr "";
                        access_token := YamlStr "";
                        access_token_secret := YamlStr "" |};
     bluesky := Some {| bluesky_username := YamlStr "";
                        bluesky_password := YamlStr "" |};
     interval_minutes := Some 5%Z;
     polling := {| max_tweets_per_check := Some 10%Z; target_users := [] |} |}.

(** What the configuration file holds. *)
Inductive config_file :=
| ConfigUnreadable                 (* open or yaml.safe_load raises *)
| ConfigOther                      (* a YAML document that is no mapping *)
| ConfigMapping (s : settings).

(** The outside world at start-up. *)
Record startup := {
  config_at_start : config_file;
  config_writable : bool;          (* open(.., 'w') and yaml.dump return *)
  verify_credentials : outcome unit;
  login : outcome unit;
  bookmarks_at_start : file_state
}.

Inductive startup_exn :=
| ValueError                       (* raised at line 123 or 155 *)
| AttributeError                   (* [.get] on a configuration that is no mapping *)
| ConfigWriteError                 (* raised while writing the default file *)
| VendorError (e : exn).           (* raised by a vendor client *)

Inductive started (A : Type) :=
| Started (a : A)
| Failed (e : startup_exn).
Arguments Started {A} a.
Arguments Failed {A} e.

Inductive startup_event :=
| EvWriteDefault                   (* the default configuration is written *)
| EvVerifyCredentials              (* api.verify_credentials() *)
| EvLogin.                         (* client.login(username, password) *)

(** Python truthiness of a configuration value. *)
Definition truthy (v : yaml_value) : bool :=
  match v with
  | YamlNull => false
  | YamlStr EmptyString => false
  | YamlStr (String _ _) => true
  | YamlOther b => b
  end.

(** [_load_config]: the value of [self.config] ([None] for a document that
    is no mapping) and the calls made.  The handler of line 77 writes the
    default file outside any [try]. *)
Definition _load_config (sw : startup)
  : started (option settings) * list startup_event :=
  match config_at_start sw with
  | ConfigMapping s => (Started (Some s), [])
  | ConfigOther => (Started None, [])
  | ConfigUnreadable =>
      if config_writable sw
      then (Started (Some default_config), [EvWriteDefault])
      else (Failed ConfigWriteError, [EvWriteDefault])
  end.

(** [_authenticate_twitter]: the handler of lines 136-138 raises again. *)
Definition _authenticate_twitter (sw : startup) (cfg : option settings)
  : started unit * list startup_event :=
  match cfg with
  | None => (Failed AttributeError, [])
  | Some s =>
      match twitter s with
      | None => (Failed AttributeError, [])
      | Some keys =>
          if truthy (api_key keys) && truthy (api_secret keys)
             && truthy (access_token keys)
             && truthy (access_token_secret keys)
          then
            match verify_credentials sw with
            | Returned _ => (Started tt, [EvVerifyCredentials])
            | Raised e => (Failed (VendorError e), [EvVerifyCredentials])
            end
          else (Failed ValueError, [])
      end
  end.

(** [_authenticate_bluesky]: the handler of lines 163-165 raises again. *)
Definition _authenticate_bluesky (sw : startup) (cfg : option settings)
  : started unit * list startup_event :=
  match cfg with
  | None => (Failed AttributeError, [])
  | Some s =>
      match bluesky s with
      | None => (Failed AttributeError, [])
      | Some keys =>
          if truthy (bluesky_username keys) && truthy (bluesky_password keys)
          then
            match login sw with
            | Returned _ => (Started tt, [EvLogin])
            | Raised e => (Failed (VendorError e), [EvLogin])
            end
          else (Failed ValueError, [])
      end
  end.

(** [__init__]: the configuration and the object, or the exception that
    leaves the constructor, with the calls made in order. *)
Definition __init__ (sw : startup)
  : started (option settings * state) * list startup_event :=
  match _load_config sw with
  | (Failed e, evs) => (Failed e, evs)
  | (Started cfg, evs) =>
      match _authenticate_twitter sw cfg with
      | (Failed e, evs1) => (Failed e, evs ++ evs1)
      | (Started _, evs1) =>
          match _authenticate_bluesky sw cfg with
          | (Failed e, evs2) => (Failed e, evs ++ evs1 ++ evs2)
          | (Started _, evs2) =>
              (Started (cfg, init (bookmarks_at_start sw)),
               evs ++ evs1 ++ evs2)
          end
      end
  end.

(** All six credentials are set. *)
Definition credentials_set (s : settings) : bool :=
  match twitter s, bluesky s with
  | Some tk, Some bk =>
      truthy (api_key tk) && truthy (api_secret tk)
      && truthy (access_token tk) && truthy (access_token_secret tk)
      && truthy (bluesky_username bk) && truthy (bluesky_password bk)
  | _, _ => false
  end.

Module SampleStart.

Definition keys : settings :=
  {| twitter := Some {| api_key := YamlStr "k"; api_secret := YamlStr "s";
                        access_token := YamlStr "t";
                        access_token_secret := YamlStr "ts" |};
     bluesky := Some {| bluesky_username := YamlStr "alice.example";
                        bluesky_password := YamlStr "pw" |};
     interval_minutes := None;
     polling := Sample.cfg |}.

(** As [keys], without the access token. *)
Definition no_token : settings :=
  {| twitter := Some {| api_key := YamlStr "k"; api_secret := YamlStr "s";
                        access_token := YamlNull;
                        access_token_secret := YamlStr "ts" |};
     bluesky := bluesky keys;
     interval_minutes := None;
     polling := Sample.cfg |}.

Definition world_of (f : config_file) : startup :=
  {| config_at_start := f; config_writable := true;
     verify_credentials := Returned tt; login := Returned tt;
     bookmarks_at_start := FileJson {["alice" := "5"]} |}.

(** As [keys], with [twitter: null]. *)
Definition null_twitter : settings :=
  {| twitter := None;
     bluesky := bluesky keys;
     interval_minutes := None;
     polling := Sample.cfg |}.

End SampleStart.

(** * Properties *)

(** ** The log *)

Section Log.

Lemma sent_texts_app (l1 l2 : list event) :
  sent_texts (l1 ++ l2) = sent_texts l1 ++ sent_texts l2.
Proof.
  induction l1 as [|ev l1 IH]; [reflexivity|].
  destruct ev; simpl; rewrite IH; reflexivity.
Qed.

Lemma saves_app (l1 l2 : list event) :
  saves (l1 ++ l2) = saves l1 ++ saves l2.
Proof.
  induction l1 as [|ev l1 IH]; [reflexivity|].
  destruct ev; simpl; rewrite IH; reflexivity.
Qed.

Lemma published_texts_app (l1 l2 : list event) :
  published_texts (l1 ++ l2) = published_texts l1 ++ published_texts l2.
Proof.
  induction l1 as [|ev l1 IH]; [reflexivity|].
  destruct ev as [| text [] |]; simpl; rewrite IH; reflexivity.
Qed.

End Log.

(** ** The publishing loop *)

Section PostAll.

Variable w : world.
Variable username : string.

Lemma post_all_cons (t : tweet) (rest : list tweet) (n : nat) (st : state) :
  post_all w username (t :: rest) n st =
  post_all w username rest (if posted w st t then S n else n) (after_turn w username st t).
Proof. reflexivity. Qed.

Lemma post_all_app (l1 l2 : list tweet) (n : nat) (st : state) :
  post_all w username (l1 ++ l2) n st =
  post_all w username l2 (fst (post_all w username l1 n st))
           (snd (post_all w username l1 n st)).
Proof.
  revert n st; induction l1 as [|t l1 IH]; intros n st; [reflexivity|].
  rewrite <- app_comm_cons, !post_all_cons. apply IH.
Qed.

Lemma post_all_file (l : list tweet) (n : nat) (st : state) :
  last_tweet_file (snd (post_all w username l n st)) = last_tweet_file st.
Proof.
  revert n st; induction l as [|t l IH]; intros n st; [reflexivity|].
  rewrite post_all_cons, IH. reflexivity.
Qed.

(** The events of the loop: one call of the publish adapter per tweet. *)
Lemma post_all_log (l : list tweet) (n : nat) (st : state) :
  exists evs,
    log (snd (post_all w username l n st)) = log st ++ evs
    /\ sent_texts evs = map full_text l
    /\ saves evs = []
    /\ length evs = length l.
Proof.
  revert n st; induction l as [|t l IH]; intros n st.
  - exists []. simpl. rewrite app_nil_r. auto.
  - rewrite post_all_cons.
    destruct (IH (if posted w st t then S n else n) (after_turn w username st t))
      as (evs & Hlog & Hsent & Hsaves & Hlen).
    exists (EvSendPost (full_text t) (posted w st t) :: evs).
    rewrite Hlog. simpl. rewrite <- app_assoc. simpl.
    rewrite Hsent, Hsaves, Hlen. auto.
Qed.

(** The loop leaves the entries of the other accounts alone. *)
Lemma post_all_other (l : list tweet) (n : nat) (st : state) (v : string) :
  v <> username ->
  last_tweet_ids (snd (post_all w username l n st)) !! v
  = last_tweet_ids st !! v.
Proof.
  intros Hv. revert n st; induction l as [|t l IH]; intros n st;
    [reflexivity|].
  rewrite post_all_cons, IH. simpl.
  apply lookup_insert_ne. congruence.
Qed.

(** After the loop the entry of the account is the id of the tweet of
    the last turn, whatever the publish adapter answered. *)
Lemma post_all_last (l : list tweet) (t : tweet) (n : nat) (st : state) :
  last_tweet_ids (snd (post_all w username (l ++ [t]) n st))
  = <[username := PyStr.str (tweet_id t)]> (last_tweet_ids st).
Proof.
  revert n st; induction l as [|t' l IH]; intros n st.
  - reflexivity.
  - rewrite <- app_comm_cons, post_all_cons, IH. simpl.
    apply insert_insert_eq.
Qed.

(** The count is the number of calls that returned. *)
Lemma post_all_count (l : list tweet) (n : nat) (st : state) :
  fst (post_all w username l n st) <= n + length l.
Proof.
  revert n st; induction l as [|t l IH]; intros n st; simpl length.
  - simpl. lia.
  - rewrite post_all_cons.
    specialize (IH (if posted w st t then S n else n) (after_turn w username st t)).
    destruct (posted w st t); lia.
Qed.

End PostAll.

(** ** The stages of a pass *)

Section Pass.

Variables (w : world) (cfg : config) (st : state) (username : string).

Lemma fetched_returned (tweets : list tweet) :
  user_timeline w (now st) username (max_tweets cfg) = Returned tweets ->
  fetched w cfg st username = tweets.
Proof. unfold fetched, get_user_tweets. intros ->. reflexivity. Qed.

Lemma fetched_raised (e : exn) :
  user_timeline w (now st) username (max_tweets cfg) = Raised e ->
  fetched w cfg st username = [].
Proof. unfold fetched, get_user_tweets. intros ->. reflexivity. Qed.

Lemma select_new_tweets_nil (o : option string) :
  select_new_tweets o [] = [].
Proof. destruct o as [[|c s]|]; reflexivity. Qed.

(** A pass with nothing left after the filter: only the fetch happened. *)
Lemma process_new_tweets_idle :
  processed w cfg st username = [] ->
  process_new_tweets w cfg st username = (0, after_fetch w cfg st username).
Proof.
  unfold processed, selected, fetched, after_fetch, process_new_tweets.
  fold (max_tweets cfg).
  destruct (get_user_tweets w st username (max_tweets cfg)) as [tweets st1].
  simpl. destruct tweets as [|t tweets]; [reflexivity|].
  intros ->. reflexivity.
Qed.

(** A pass with at least one tweet left: the loop, then the save. *)
Lemma process_new_tweets_busy :
  processed w cfg st username <> [] ->
  process_new_tweets w cfg st username =
  (fst (post_all w username (processed w cfg st username) 0
                 (after_fetch w cfg st username)),
   _save_last_tweet_ids w
     (snd (post_all w username (processed w cfg st username) 0
                    (after_fetch w cfg st username)))).
Proof.
  unfold processed, selected, fetched, after_fetch, process_new_tweets.
  fold (max_tweets cfg).
  destruct (get_user_tweets w st username (max_tweets cfg)) as [tweets st1].
  simpl. destruct tweets as [|t tweets].
  - rewrite select_new_tweets_nil. intros []. reflexivity.
  - destruct (filter_tweets _) as [|p ps] eqn:E; [intros []; reflexivity|].
    intros _.
    destruct (post_all w username (p :: ps) 0 st1) as [n st2].
    reflexivity.
Qed.

Lemma after_fetch_ids :
  last_tweet_ids (after_fetch w cfg st username) = last_tweet_ids st.
Proof. reflexivity. Qed.

Lemma after_fetch_file :
  last_tweet_file (after_fetch w cfg st username) = last_tweet_file st.
Proof. reflexivity. Qed.

Lemma after_fetch_log :
  log (after_fetch w cfg st username) =
  log st ++ [EvTimeline username (max_tweets cfg)
               (user_timeline w (now st) username (max_tweets cfg))].
Proof. reflexivity. Qed.

End Pass.

(** ** A tweet without listed URLs is never taken for a quote

    With an empty URL list the remainder is the whole text, which still
    holds the link that made the rule apply: it cannot be short. *)

Section StripFacts.

Lemma prefix_split (p s : PyStr.text) :
  PyStr.prefix p s = true -> exists b, s = p ++ b.
Proof.
  revert s; induction p as [|c p IH]; intros s H.
  - exists s. reflexivity.
  - destruct s as [|d s]; [discriminate|]. simpl in H.
    apply andb_true_iff in H. destruct H as [Hc Hp].
    apply N.eqb_eq in Hc. subst d.
    destruct (IH s Hp) as [b ->]. exists b. reflexivity.
Qed.

Lemma contains_split (p s : PyStr.text) :
  PyStr.contains p s = true -> exists a b, s = a ++ p ++ b.
Proof.
  induction s as [|c s IH]; intros H.
  - change (PyStr.prefix p [] || false = true) in H.
    rewrite orb_false_r in H. destruct (prefix_split _ _ H) as [b Hb].
    exists [], b. exact Hb.
  - change (PyStr.prefix p (c :: s) || PyStr.contains p s = true) in H.
    apply orb_true_iff in H. destruct H as [H|H].
    + destruct (prefix_split _ _ H) as [b Hb].
      exists [], b. exact Hb.
    + destruct (IH H) as (a & b & ->). exists (c :: a), b. reflexivity.
Qed.

(** [lstrip] stops at the latest at the first character that is no space. *)
Lemma lstrip_append (a r : PyStr.text) (c : N) :
  PyStr.isspace c = false ->
  exists a', PyStr.lstrip (a ++ c :: r) = a' ++ c :: r.
Proof.
  intros Hc. induction a as [|x a IH].
  - simpl. rewrite Hc. exists []. reflexivity.
  - simpl. destruct (PyStr.isspace x).
    + exact IH.
    + exists (x :: a). reflexivity.
Qed.

(** [rstrip] keeps everything up to the last character that is no space. *)
Lemma rstrip_append (x y : PyStr.text) (d : N) :
  PyStr.isspace d = false ->
  PyStr.rstrip (x ++ d :: y) = x ++ d :: PyStr.rstrip y.
Proof.
  intros Hd. induction x as [|c x IH].
  - simpl. rewrite Hd. destruct (PyStr.rstrip y); reflexivity.
  - simpl. rewrite IH. destruct x; reflexivity.
Qed.

(** A word [c q d] without a space at either end survives [strip]. *)
Lemma strip_keeps_word (a b q : PyStr.text) (c d : N) :
  PyStr.isspace c = false -> PyStr.isspace d = false ->
  2 + length q <= length (PyStr.strip (a ++ (c :: q ++ [d]) ++ b)).
Proof.
  intros Hc Hd. unfold PyStr.strip.
  replace (a ++ (c :: q ++ [d]) ++ b) with (a ++ c :: (q ++ d :: b))
    by (simpl; rewrite <- app_assoc; reflexivity).
  destruct (lstrip_append a (q ++ d :: b) c Hc) as [a' ->].
  replace (a' ++ c :: q ++ d :: b) with ((a' ++ c :: q) ++ d :: b)
    by (rewrite <- app_assoc; reflexivity).
  rewrite rstrip_append by exact Hd.
  rewrite !length_app. simpl. lia.
Qed.

Lemma quote_rule_needs_urls (t : tweet) :
  entities_urls t = [] -> quote_rule t = false.
Proof.
  intros Hurls. unfold quote_rule, text_without_url. rewrite Hurls. simpl.
  destruct (has_source_link t) eqn:Hlink; [|reflexivity]. simpl.
  apply Nat.ltb_ge. unfold has_source_link in Hlink.
  apply orb_true_iff in Hlink.
  destruct Hlink as [H|H]; apply contains_split in H;
    destruct H as (a & b & ->).
  - pose proof (strip_keeps_word a b (PyStr.lit "ttps://twitter.com")
                  104%N 47%N eq_refl eq_refl) as Hk.
    change (2 + length (PyStr.lit "ttps://twitter.com")) with 20 in Hk.
    eapply Nat.le_trans; [|exact Hk]. lia.
  - pose proof (strip_keeps_word a b (PyStr.lit "ttps://x.com")
                  104%N 47%N eq_refl eq_refl) as Hk.
    change (2 + length (PyStr.lit "ttps://x.com")) with 14 in Hk.
    eapply Nat.le_trans; [|exact Hk]. lia.
Qed.

End StripFacts.

(** ** Trimming *)

Section Trimming.









Lemma lstrip_spaces (ws s : PyStr.text) :
  forallb PyStr.isspace ws = true ->
  PyStr.lstrip (ws ++ s) = PyStr.lstrip s.
Proof.
  induction ws as [|c ws IH]; intros H; [reflexivity|].
  simpl in H. apply andb_true_iff in H. destruct H as [Hc Hws].
  simpl. rewrite Hc. exact (IH Hws).
Qed.

Lemma mention_rule_after_whitespace (t : tweet) (ws rest : PyStr.text) :
  forallb PyStr.isspace ws = true ->
  full_text t = ws ++ PyStr.lit "@" ++ rest ->
  mention_rule t = true.
Proof.
  intros Hws Htext. unfold mention_rule, PyStr.strip.
  rewrite Htext, lstrip_spaces by exact Hws.
  change (PyStr.lit "@" ++ rest) with ([] ++ 64%N :: rest).
  change (PyStr.lstrip ([] ++ 64%N :: rest)) with ([] ++ 64%N :: rest).
  rewrite rstrip_append by reflexivity. reflexivity.
Qed.

End Trimming.

(** ** The filter *)

Lemma is_mention_or_retweet_rules (t : tweet) :
  is_mention_or_retweet t = retweet_rule t || mention_rule t || quote_rule t.
Proof.
  unfold is_mention_or_retweet, quote_rule.
  destruct (retweet_rule t), (mention_rule t), (has_source_link t);
    simpl; try reflexivity.
  destruct (_ <? _)%nat; reflexivity.
Qed.

(** C5.  [is_mention_or_retweet] answers [True] for every tweet that
    carries [retweeted_status] or whose text begins with "RT @", and for
    every tweet whose stripped text starts with "@", the text being any
    sequence of code points and stripped as [str.strip()] does; the text
    "thanks @bob!" does not meet the mention rule (and a tweet with that
    text, no [retweeted_status] and any URL list is not excluded at all). *)
Theorem retweets_and_mentions_excluded :
  (forall t : tweet,
      retweeted_status t = true \/ PyStr.startswith (full_text t) "RT @" = true ->
      is_mention_or_retweet t = true)
  /\ (forall t : tweet,
         PyStr.startswith (PyStr.strip (full_text t)) "@" = true ->
         is_mention_or_retweet t = true)
  /\ (forall (i : Z) (rt : bool) (urls : list PyStr.text),
         let t := {| tweet_id := i; full_text := "thanks @bob!";
                     retweeted_status := rt; entities_urls := urls |} in
         mention_rule t = false
         /\ (rt = false -> is_mention_or_retweet t = false)).
Proof.
  split; [|split].
  - intros t H. rewrite is_mention_or_retweet_rules. unfold retweet_rule.
    destruct H as [-> | ->]; [reflexivity|].
    rewrite orb_true_r. reflexivity.
  - intros t H. rewrite is_mention_or_retweet_rules. unfold mention_rule.
    rewrite H, orb_true_r. reflexivity.
  - intros i rt urls t. split; [reflexivity|].
    intros ->. reflexivity.
Qed.

Lemma retweets_and_mentions_excluded_witness :
  is_mention_or_retweet
    {| tweet_id := 1; full_text := "RT @alice: hi";
       retweeted_status := false; entities_urls := [] |} = true
  /\ is_mention_or_retweet
       {| tweet_id := 2; full_text := "  @bob thanks!";
          retweeted_status := false; entities_urls := [] |} = true
  /\ is_mention_or_retweet
       {| tweet_id := 4;
          full_text := 12288%N :: PyStr.lit "@bob " ++ Sample.konnichiwa;
          retweeted_status := false; entities_urls := [] |} = true
  /\ is_mention_or_retweet
       {| tweet_id := 3; full_text := "thanks @bob!";
          retweeted_status := false; entities_urls := [] |} = false.
Proof.
  destruct retweets_and_mentions_excluded as (Hrt & Hat & Hbob).
  split; [|split; [|split]].
  - apply Hrt. right. reflexivity.
  - apply Hat. reflexivity.
  - apply Hat. reflexivity.
  - apply (Hbob 3%Z false []). reflexivity.
Defined.



(** ** The bookmark file *)

(** C7.  [_load_last_tweet_ids] always returns (no exception reaches the
    caller), and what it returns for a missing, unreadable or corrupt file
    is the empty mapping. *)
Theorem load_fails_soft (f : file_state) :
  (exists m, _load_last_tweet_ids f = Returned m)
  /\ (f = FileMissing \/ f = FileUnreadable \/ f = FileCorrupt ->
      _load_last_tweet_ids f = Returned ∅).
Proof.
  split.
  - destruct f; simpl; eauto.
  - intros [-> | [-> | ->]]; reflexivity.
Qed.

Lemma load_fails_soft_witness :
  _load_last_tweet_ids FileCorrupt = Returned ∅.
Proof.
  apply (proj2 (load_fails_soft FileCorrupt)). right. right. reflexivity.
Defined.


(** ** The pass: frame and fetch failures *)

(** C9.  A pass for [username] leaves the entry of every other account of
    [self.last_tweet_ids] as it was. *)
Theorem other_accounts_untouched (w : world) (cfg : config) (st : state)
    (username v : string) :
  v <> username ->
  last_tweet_ids (snd (process_new_tweets w cfg st username)) !! v
  = last_tweet_ids st !! v.
Proof.
  intros Hv. destruct (processed w cfg st username) as [|p ps] eqn:E.
  - rewrite process_new_tweets_idle by exact E. reflexivity.
  - rewrite process_new_tweets_busy by (rewrite E; discriminate).
    simpl. rewrite post_all_other by exact Hv. reflexivity.
Qed.

Lemma other_accounts_untouched_witness :
  last_tweet_ids
    (snd (process_new_tweets (Sample.calm [Sample.t7; Sample.t6])
            Sample.cfg Sample.at5 "bob")) !! "alice"
  = Some "5".
Proof.
  rewrite other_accounts_untouched by discriminate. reflexivity.
Defined.

(** C10.  If the fetch raises or returns no tweet, the pass returns 0,
    [self.last_tweet_ids] and the bookmark file are as before, and neither
    the publish adapter nor the bookmark file was called. *)
Theorem failed_or_empty_fetch_changes_nothing (w : world) (cfg : config)
    (st : state) (username : string) :
  (exists e, user_timeline w (now st) username (max_tweets cfg) = Raised e)
  \/ user_timeline w (now st) username (max_tweets cfg) = Returned [] ->
  fst (process_new_tweets w cfg st username) = 0
  /\ last_tweet_ids (snd (process_new_tweets w cfg st username))
     = last_tweet_ids st
  /\ last_tweet_file (snd (process_new_tweets w cfg st username))
     = last_tweet_file st
  /\ sent_texts (log (snd (process_new_tweets w cfg st username)))
     = sent_texts (log st)
  /\ saves (log (snd (process_new_tweets w cfg st username)))
     = saves (log st).
Proof.
  intros H.
  assert (Hf : fetched w cfg st username = []).
  { destruct H as [[e He] | He].
    - exact (fetched_raised w cfg st username e He).
    - exact (fetched_returned w cfg st username [] He). }
  assert (Hp : processed w cfg st username = []).
  { unfold processed, selected. rewrite Hf, select_new_tweets_nil.
    reflexivity. }
  rewrite process_new_tweets_idle by exact Hp. simpl.
  rewrite sent_texts_app, saves_app. simpl. rewrite !app_nil_r. auto.
Qed.

Lemma failed_or_empty_fetch_changes_nothing_witness :
  fst (process_new_tweets Sample.offline Sample.cfg Sample.at5 "alice") = 0
  /\ last_tweet_ids
       (snd (process_new_tweets Sample.offline Sample.cfg Sample.at5 "alice"))
     = last_tweet_ids Sample.at5.
Proof.
  destruct (failed_or_empty_fetch_changes_nothing
              Sample.offline Sample.cfg Sample.at5 "alice")
    as (H0 & Hids & _).
  - left. exists TweepyException. reflexivity.
  - split; [exact H0 | exact Hids].
Defined.

(** ** Selection *)

Lemma newest_first_head (first : tweet) (rest : list tweet) (t : tweet) :
  newest_first (first :: rest) = true -> In t (first :: rest) ->
  (tweet_id t <= tweet_id first)%Z.
Proof.
  simpl. intros H [<- | Hin]; [lia|].
  apply andb_true_iff in H. destruct H as [H _].
  rewrite forallb_forall in H. specialize (H t Hin).
  apply Z.ltb_lt in H. lia.
Qed.

(** C4, as the code has it.  With no entry for [username] and a fetch
    that returns at least one tweet, [new_tweets] holds exactly one tweet,
    the first of the fetched list; when the fetch lists the tweets newest
    first, no fetched tweet is more recent than it. *)
Theorem first_pass_selects_first_fetched (w : world) (cfg : config)
    (st : state) (username : string) (tweets : list tweet) :
  last_tweet_ids st !! username = None ->
  user_timeline w (now st) username (max_tweets cfg) = Returned tweets ->
  tweets <> [] ->
  exists first,
    head tweets = Some first
    /\ selected w cfg st username = [first]
    /\ (newest_first tweets = true ->
        forall t, In t tweets -> (tweet_id t <= tweet_id first)%Z).
Proof.
  intros Hnone Hfetch Hne. destruct tweets as [|first rest]; [congruence|].
  exists first. split; [reflexivity|]. split.
  - unfold selected.
    rewrite (fetched_returned w cfg st username _ Hfetch), Hnone.
    reflexivity.
  - intros Hsorted t Hin. exact (newest_first_head first rest t Hsorted Hin).
Qed.

Lemma first_pass_selects_first_fetched_witness :
  exists first,
    head [Sample.t7; Sample.t6; Sample.t5] = Some first
    /\ selected (Sample.calm [Sample.t7; Sample.t6; Sample.t5]) Sample.cfg
         (init FileMissing) "alice" = [first]
    /\ (newest_first [Sample.t7; Sample.t6; Sample.t5] = true ->
        forall t, In t [Sample.t7; Sample.t6; Sample.t5] ->
                  (tweet_id t <= tweet_id first)%Z).
Proof.
  apply first_pass_selects_first_fetched;
    [reflexivity | reflexivity | discriminate].
Defined.

(** A first pass on a timeline handed out oldest first: the one tweet
    selected and published is tweet 5, the oldest, although tweet 7 was
    fetched too. *)
Lemma most_recent_selection_counterexample :
  let w := Sample.calm [Sample.t5; Sample.t6; Sample.t7] in
  selected w Sample.cfg (init FileMissing) "alice" = [Sample.t5]
  /\ In Sample.t7 (fetched w Sample.cfg (init FileMissing) "alice")
  /\ (tweet_id Sample.t5 < tweet_id Sample.t7)%Z
  /\ sent_texts
       (log (snd (process_new_tweets w Sample.cfg (init FileMissing) "alice")))
     = map PyStr.lit ["five"].
Proof.
  cbv zeta. split; [reflexivity|]. split; [right; right; left; reflexivity|].
  split; [reflexivity|]. vm_compute. reflexivity.
Qed.

(** ** The events of a pass *)

Section PassLog.

Variables (w : world) (cfg : config) (st : state) (username : string).

(** The save of a pass that published: it comes last and is handed the
    mapping the loop left. *)
Lemma busy_pass_log :
  processed w cfg st username <> [] ->
  exists posts,
    log (snd (process_new_tweets w cfg st username))
    = log st
      ++ EvTimeline username (max_tweets cfg)
           (user_timeline w (now st) username (max_tweets cfg))
      :: posts
      ++ [EvSave (last_tweet_ids (snd (process_new_tweets w cfg st username)))
            (write_file w
               (now st + 1 + length (processed w cfg st username)))]
    /\ sent_texts posts = map full_text (processed w cfg st username)
    /\ saves posts = [].
Proof.
  intros Hne. rewrite process_new_tweets_busy by exact Hne.
  destruct (post_all_log w username (processed w cfg st username) 0
              (after_fetch w cfg st username))
    as (posts & Hlog & Hsent & Hsaves & Hlen).
  exists posts. split; [|split; assumption].
  unfold _save_last_tweet_ids, now. simpl. rewrite Hlog, after_fetch_log.
  rewrite !length_app, Hlen. simpl. rewrite <- !app_assoc. simpl.
  repeat f_equal; lia.
Qed.

Lemma idle_pass_log :
  processed w cfg st username = [] ->
  log (snd (process_new_tweets w cfg st username))
  = log st ++ [EvTimeline username (max_tweets cfg)
                 (user_timeline w (now st) username (max_tweets cfg))].
Proof. intros He. rewrite process_new_tweets_idle by exact He. reflexivity. Qed.

(** A pass calls the publish adapter once per tweet of [filtered_tweets],
    in the order of that list. *)
Lemma pass_sent_texts :
  sent_texts (log (snd (process_new_tweets w cfg st username)))
  = sent_texts (log st) ++ map full_text (processed w cfg st username).
Proof.
  destruct (processed w cfg st username) as [|p ps] eqn:E.
  - rewrite idle_pass_log by exact E. rewrite sent_texts_app. reflexivity.
  - destruct busy_pass_log as (posts & Hlog & Hsent & _);
      [rewrite E; discriminate|].
    rewrite Hlog, sent_texts_app. simpl. rewrite sent_texts_app, Hsent, E.
    simpl. rewrite app_nil_r. reflexivity.
Qed.

(** The log only grows. *)
Lemma pass_log_extends :
  exists evs,
    log (snd (process_new_tweets w cfg st username)) = log st ++ evs.
Proof.
  destruct (processed w cfg st username) as [|p ps] eqn:E.
  - rewrite idle_pass_log by exact E. eauto.
  - destruct busy_pass_log as (posts & Hlog & _);
      [rewrite E; discriminate|].
    rewrite Hlog. eauto.
Qed.

End PassLog.

Lemma for_each_user_cons (w : world) (cfg : config) (c : ascii)
    (name : string) (rest : list (option string)) (total : nat) (st : state) :
  for_each_user w cfg (Some (String c name) :: rest) total st
  = for_each_user w cfg rest
      (total + fst (process_new_tweets w cfg st (String c name)))
      (snd (process_new_tweets w cfg st (String c name))).
Proof.
  simpl. destruct (process_new_tweets w cfg st (String c name)). reflexivity.
Qed.

Lemma for_each_user_log_extends (w : world) (cfg : config)
    (users : list (option string)) (total : nat) (st : state) :
  exists evs, log (snd (for_each_user w cfg users total st)) = log st ++ evs.
Proof.
  revert total st. induction users as [|user rest IH]; intros total st.
  - exists []. simpl. rewrite app_nil_r. reflexivity.
  - destruct user as [[|c name]|]; try exact (IH total st).
    rewrite for_each_user_cons.
    destruct (IH (total + fst (process_new_tweets w cfg st (String c name)))
                 (snd (process_new_tweets w cfg st (String c name))))
      as [later ->].
    destruct (pass_log_extends w cfg st (String c name)) as [evs ->].
    exists (evs ++ later). rewrite app_assoc. reflexivity.
Qed.

Lemma filter_sublist {A} (f : A -> bool) (l : list A) :
  sublist (List.filter f l) l.
Proof.
  induction l as [|x l IH]; simpl; [constructor|].
  destruct (f x); constructor; exact IH.
Qed.

Lemma busy_pass_file (w : world) (cfg : config) (st : state)
    (username : string) :
  processed w cfg st username <> [] ->
  last_tweet_file (snd (process_new_tweets w cfg st username))
  = file_after_save
      (write_file w (now st + 1 + length (processed w cfg st username)))
      (last_tweet_ids (snd (process_new_tweets w cfg st username)))
      (last_tweet_file st).
Proof.
  intros Hne. rewrite process_new_tweets_busy by exact Hne.
  destruct (post_all_log w username (processed w cfg st username) 0
              (after_fetch w cfg st username))
    as (posts & Hlog & _ & _ & Hlen).
  unfold _save_last_tweet_ids, now. simpl.
  rewrite post_all_file, Hlog, after_fetch_log, !length_app, Hlen. simpl.
  repeat f_equal; lia.
Qed.

Lemma busy_pass_ids (w : world) (cfg : config) (st : state)
    (username : string) (done : list tweet) (t : tweet) :
  processed w cfg st username = done ++ [t] ->
  last_tweet_ids (snd (process_new_tweets w cfg st username))
  = <[username := PyStr.str (tweet_id t)]> (last_tweet_ids st).
Proof.
  intros E.
  rewrite process_new_tweets_busy by (rewrite E; destruct done; discriminate).
  rewrite E. simpl. rewrite post_all_last. reflexivity.
Qed.

(** ** Selection against a recorded id, and the order of publication *)

(** C2, as the code has it.  With a non-empty id [last] recorded for
    [username], [new_tweets] holds exactly the fetched tweets whose
    [str(id)] is greater than [last] as a string, and the pass calls the
    publish adapter for those of them the filter keeps, in the order in
    which the fetch returned them (the source never sorts). *)
Theorem newer_tweets_published_in_fetch_order (w : world) (cfg : config)
    (st : state) (username last : string) (tweets : list tweet) :
  last_tweet_ids st !! username = Some last ->
  last <> "" ->
  user_timeline w (now st) username (max_tweets cfg) = Returned tweets ->
  (forall t, In t (selected w cfg st username) <->
             In t tweets /\ PyStr.gt (PyStr.str (tweet_id t)) last = true)
  /\ (forall t, In t (processed w cfg st username) <->
                In t (selected w cfg st username)
                /\ is_mention_or_retweet t = false)
  /\ sublist (selected w cfg st username) tweets
  /\ sublist (processed w cfg st username) tweets
  /\ sent_texts (log (snd (process_new_tweets w cfg st username)))
     = sent_texts (log st) ++ map full_text (processed w cfg st username).
Proof.
  intros Hlast Hne Hfetch.
  assert (Hsel : selected w cfg st username
                 = List.filter
                     (fun t => PyStr.gt (PyStr.str (tweet_id t)) last) tweets).
  { unfold selected.
    rewrite (fetched_returned w cfg st username _ Hfetch), Hlast.
    destruct last; [congruence | reflexivity]. }
  split; [|split; [|split; [|split]]].
  - intros t. rewrite Hsel. apply filter_In.
  - intros t. unfold processed, filter_tweets. rewrite filter_In.
    rewrite negb_true_iff. reflexivity.
  - rewrite Hsel. apply filter_sublist.
  - unfold processed, filter_tweets.
    transitivity (selected w cfg st username); [apply filter_sublist|].
    rewrite Hsel. apply filter_sublist.
  - apply pass_sent_texts.
Qed.

Lemma newer_tweets_published_in_fetch_order_witness :
  sent_texts
    (log (snd (process_new_tweets
                 (Sample.calm [Sample.t4; Sample.t5; Sample.t6; Sample.t7])
                 Sample.cfg Sample.at5 "alice")))
  = map PyStr.lit ["six"; "seven"].
Proof.
  destruct (newer_tweets_published_in_fetch_order
              (Sample.calm [Sample.t4; Sample.t5; Sample.t6; Sample.t7])
              Sample.cfg Sample.at5 "alice" "5"
              [Sample.t4; Sample.t5; Sample.t6; Sample.t7])
    as (_ & _ & _ & _ & Hsent);
    [reflexivity | discriminate | reflexivity |].
  rewrite Hsent. reflexivity.
Defined.

(** With "5" recorded and a timeline handed out newest first, the tweets
    7 and 6 are selected and published 7 first: not in ascending order. *)
Lemma ascending_publication_counterexample :
  let w := Sample.calm [Sample.t7; Sample.t6; Sample.t5; Sample.t4] in
  selected w Sample.cfg Sample.at5 "alice" = [Sample.t7; Sample.t6]
  /\ processed w Sample.cfg Sample.at5 "alice" = [Sample.t7; Sample.t6]
  /\ oldest_first (processed w Sample.cfg Sample.at5 "alice") = false
  /\ published_texts
       (log (snd (process_new_tweets w Sample.cfg Sample.at5 "alice")))
     = map PyStr.lit ["seven"; "six"].
Proof. vm_compute. repeat split. Qed.

(** ** The recorded id and the outcome of publishing *)

(** C3, as the code has it.  Whatever the publish adapter answers, the
    turn of the loop for a tweet leaves that tweet's id as the entry of
    [username], and the loop goes on with the remaining tweets; every
    tweet of [filtered_tweets] is handed to the adapter; after the pass
    the entry is the id of the tweet processed last, that mapping is what
    the pass hands to the bookmark file, and the file holds it when the
    write succeeds. *)
Theorem recorded_id_follows_every_attempt (w : world) (cfg : config)
    (st : state) (username : string) :
  (forall k t,
      processed w cfg st username !! k = Some t ->
      last_tweet_ids
        (snd (post_all w username (take (S k) (processed w cfg st username))
                0 (after_fetch w cfg st username))) !! username
      = Some (PyStr.str (tweet_id t))
      /\ post_all w username (processed w cfg st username) 0
           (after_fetch w cfg st username)
         = post_all w username (drop (S k) (processed w cfg st username))
             (fst (post_all w username
                     (take (S k) (processed w cfg st username))
                     0 (after_fetch w cfg st username)))
             (snd (post_all w username
                     (take (S k) (processed w cfg st username))
                     0 (after_fetch w cfg st username))))
  /\ sent_texts (log (snd (process_new_tweets w cfg st username)))
     = sent_texts (log st) ++ map full_text (processed w cfg st username)
  /\ (forall t,
         last (processed w cfg st username) = Some t ->
         last_tweet_ids (snd (process_new_tweets w cfg st username))
           !! username = Some (PyStr.str (tweet_id t))
         /\ saves (log (snd (process_new_tweets w cfg st username)))
            = saves (log st)
              ++ [last_tweet_ids (snd (process_new_tweets w cfg st username))]
         /\ (write_file w
               (now st + 1 + length (processed w cfg st username)) = Saved ->
             last_tweet_file (snd (process_new_tweets w cfg st username))
             = FileJson
                 (last_tweet_ids
                    (snd (process_new_tweets w cfg st username))))).
Proof.
  split; [|split].
  - intros k t Hk. split.
    + rewrite (take_S_r _ _ _ Hk), post_all_last.
      apply lookup_insert_eq.
    + rewrite <- post_all_app, take_drop. reflexivity.
  - apply pass_sent_texts.
  - intros t Hlast. apply last_Some in Hlast. destruct Hlast as [done E].
    assert (Hne : processed w cfg st username <> [])
      by (rewrite E; destruct done; discriminate).
    split; [|split].
    + rewrite (busy_pass_ids w cfg st username done t E).
      apply lookup_insert_eq.
    + destruct (busy_pass_log w cfg st username Hne)
        as (posts & Hlog & _ & Hsaves).
      rewrite Hlog at 1. rewrite saves_app. simpl.
      rewrite saves_app, Hsaves. reflexivity.
    + intros Hw. rewrite busy_pass_file by exact Hne. rewrite Hw.
      reflexivity.
Qed.

Lemma recorded_id_follows_every_attempt_witness :
  let st' := snd (process_new_tweets
                    (Sample.six_fails [Sample.t6; Sample.t7])
                    Sample.cfg Sample.at5 "alice") in
  sent_texts (log st') = map PyStr.lit ["six"; "seven"]
  /\ published_texts (log st') = map PyStr.lit ["seven"]
  /\ last_tweet_ids st' !! "alice" = Some "7"
  /\ last_tweet_file st' = FileJson (last_tweet_ids st').
Proof.
  destruct (recorded_id_follows_every_attempt
              (Sample.six_fails [Sample.t6; Sample.t7])
              Sample.cfg Sample.at5 "alice")
    as (_ & Hsent & Hlast).
  destruct (Hlast Sample.t7 eq_refl) as (Hid & _ & Hfile).
  split; [rewrite Hsent; reflexivity|].
  split; [reflexivity|].
  split; [exact Hid|].
  apply Hfile. reflexivity.
Defined.

(** Two runs in which publishing "six" fails and "seven" succeeds and the
    file does not end with "7": the timeline is newest first and the write
    succeeds (the file holds "6"); the timeline is oldest first and the
    file cannot be opened for writing (the file still holds "5"). *)
Lemma final_recorded_id_counterexample :
  (let st' := snd (process_new_tweets
                     (Sample.six_fails [Sample.t7; Sample.t6])
                     Sample.cfg Sample.at5 "alice") in
   sent_texts (log st') = map PyStr.lit ["seven"; "six"]
   /\ published_texts (log st') = map PyStr.lit ["seven"]
   /\ last_tweet_file st' = FileJson {["alice" := "6"]})
  /\ (let st' := snd (process_new_tweets
                        (Sample.six_fails_readonly [Sample.t6; Sample.t7])
                        Sample.cfg Sample.at5 "alice") in
      sent_texts (log st') = map PyStr.lit ["six"; "seven"]
      /\ published_texts (log st') = map PyStr.lit ["seven"]
      /\ last_tweet_ids st' !! "alice" = Some "7"
      /\ last_tweet_file st' = FileJson {["alice" := "5"]}).
Proof. vm_compute. repeat split. Qed.

(** ** When the bookmark file is written *)

(** C8, as the code has it.  A pass that is left with at least one tweet
    after the filter calls the publish adapter for each of them and then,
    once and last, hands [self.last_tweet_ids] to the bookmark file; a pass
    that is left with none does not write the file (and has changed
    nothing to save).  Whatever the loop over the accounts does for the
    later accounts comes after the events of this pass. *)
Theorem save_follows_a_published_batch (w : world) (cfg : config)
    (st : state) (username : string) (rest : list (option string))
    (total : nat) :
  username <> "" ->
  (processed w cfg st username <> [] ->
   exists posts,
     log (snd (process_new_tweets w cfg st username))
     = log st
       ++ EvTimeline username (max_tweets cfg)
            (user_timeline w (now st) username (max_tweets cfg))
       :: posts
       ++ [EvSave
             (last_tweet_ids (snd (process_new_tweets w cfg st username)))
             (write_file w
                (now st + 1 + length (processed w cfg st username)))]
     /\ sent_texts posts = map full_text (processed w cfg st username)
     /\ saves posts = [])
  /\ (processed w cfg st username = [] ->
      saves (log (snd (process_new_tweets w cfg st username)))
      = saves (log st)
      /\ last_tweet_ids (snd (process_new_tweets w cfg st username))
         = last_tweet_ids st
      /\ last_tweet_file (snd (process_new_tweets w cfg st username))
         = last_tweet_file st)
  /\ (exists later,
         log (snd (for_each_user w cfg (Some username :: rest) total st))
         = log (snd (process_new_tweets w cfg st username)) ++ later).
Proof.
  intros Hname. split; [|split].
  - apply busy_pass_log.
  - intros He. rewrite process_new_tweets_idle by exact He. simpl.
    rewrite saves_app. simpl. rewrite app_nil_r. auto.
  - destruct username as [|c name]; [congruence|].
    rewrite for_each_user_cons. apply for_each_user_log_extends.
Qed.

Lemma save_follows_a_published_batch_witness :
  saves
    (log (snd (process_new_tweets
                 (Sample.calm [Sample.t6; Sample.t7])
                 Sample.cfg Sample.at5 "alice")))
  = [{["alice" := "7"]}].
Proof.
  destruct (save_follows_a_published_batch
              (Sample.calm [Sample.t6; Sample.t7])
              Sample.cfg Sample.at5 "alice" [] 0)
    as (Hbusy & _ & _); [discriminate|].
  destruct Hbusy as (posts & Hlog & _ & Hsaves); [discriminate|].
  rewrite Hlog, saves_app. simpl. rewrite saves_app, Hsaves.
  reflexivity.
Defined.

(** A first pass whose only selected tweet is a reply: the selection is
    not empty, the bookmark file is not written and still does not
    exist. *)
Lemma save_after_every_batch_counterexample :
  let w := Sample.calm [Sample.reply] in
  let st' := snd (process_new_tweets w Sample.cfg (init FileMissing) "alice") in
  selected w Sample.cfg (init FileMissing) "alice" = [Sample.reply]
  /\ saves (log st') = []
  /\ last_tweet_file st' = FileMissing.
Proof. vm_compute. repeat split. Qed.

(** ** Forwarding at most once *)

(** C1 on a run of three polls of one account, every call succeeding.
    The first poll publishes tweet 5.  The second poll finds 7 and 6,
    newest first, publishes them in that order and so leaves "6" as the
    recorded id.  The third poll finds nothing new, selects 7 again and
    publishes it a second time. *)
Theorem newest_first_batch_is_republished :
  let start := init FileMissing in
  published_texts (log (run 1 Sample.growing Sample.cfg start)) = map PyStr.lit ["five"]
  /\ published_texts (log (run 2 Sample.growing Sample.cfg start))
     = map PyStr.lit ["five"; "seven"; "six"]
  /\ last_tweet_ids (run 2 Sample.growing Sample.cfg start) !! "alice"
     = Some "6"
  /\ last_tweet_file (run 2 Sample.growing Sample.cfg start)
     = FileJson {["alice" := "6"]}
  /\ published_texts (log (run 3 Sample.growing Sample.cfg start))
     = map PyStr.lit ["five"; "seven"; "six"; "seven"]
  /\ ~ NoDup (published_texts (log (run 3 Sample.growing Sample.cfg start))).
Proof.
  assert (H3 : published_texts
                 (log (run 3 Sample.growing Sample.cfg (init FileMissing)))
               = map PyStr.lit ["five"; "seven"; "six"; "seven"])
    by (vm_compute; reflexivity).
  cbv zeta. rewrite H3.
  repeat split; try (vm_compute; reflexivity).
  intros Hnd. inversion Hnd as [|five rest1 _ Hnd1]; subst.
  inversion Hnd1 as [|seven rest2 Hnotin _]; subst.
  apply Hnotin. repeat constructor.
Qed.

(** * Further properties of the code *)

(** ** String comparison of ids (line 305) *)

Section Digits.

Lemma string_of_digits (d : Decimal.uint) :
  NilEmpty.string_of_uint d = digits_string (digits d).
Proof. induction d; simpl; rewrite ?IHd; reflexivity. Qed.

Lemma digits_small (d : Decimal.uint) :
  Forall (fun k => (k < 10)%N) (digits d).
Proof. induction d; simpl; constructor; try assumption; reflexivity. Qed.

Lemma of_uint_acc_horner (d : Decimal.uint) (acc : positive) :
  N.pos (Pos.of_uint_acc d acc) = horner (digits d) (N.pos acc).
Proof.
  revert acc; induction d; intros acc; simpl; rewrite ?IHd; reflexivity.
Qed.

Lemma of_uint_horner (d : Decimal.uint) :
  Pos.of_uint d = horner (digits d) 0.
Proof. induction d; simpl; rewrite ?of_uint_acc_horner; auto. Qed.

Lemma horner_acc (l : list N) (acc : N) :
  horner l acc = (acc * 10 ^ N.of_nat (length l) + horner l 0)%N.
Proof.
  revert acc; induction l as [|k l IH]; intros acc.
  - simpl. lia.
  - simpl horner. rewrite (IH (k + 10 * acc)%N), (IH (k + 10 * 0)%N).
    simpl length. rewrite Nat2N.inj_succ, N.pow_succ_r'. lia.
Qed.

Lemma horner_bound (l : list N) :
  Forall (fun k => (k < 10)%N) l ->
  (horner l 0 < 10 ^ N.of_nat (length l))%N.
Proof.
  induction 1 as [|k l Hk _ IH].
  - simpl. lia.
  - simpl horner. rewrite horner_acc. simpl length.
    rewrite Nat2N.inj_succ, N.pow_succ_r'. nia.
Qed.

Lemma N_add_compare_l (c a b : N) : (c + a ?= c + b)%N = (a ?= b)%N.
Proof.
  destruct (N.compare_spec a b) as [-> | H | H].
  - apply N.compare_refl.
  - apply N.compare_lt_iff. lia.
  - apply N.compare_gt_iff. lia.
Qed.

Lemma digit_char_compare (a b : N) :
  (a < 10)%N -> (b < 10)%N ->
  Ascii.compare (digit_char a) (digit_char b) = N.compare a b.
Proof.
  intros Ha Hb. unfold Ascii.compare, digit_char.
  rewrite !N_ascii_embedding by lia. apply N_add_compare_l.
Qed.

(** On digit strings of one length the order of strings is the order of
    the numbers. *)
Lemma digits_string_compare (l1 l2 : list N) :
  length l1 = length l2 ->
  Forall (fun k => (k < 10)%N) l1 -> Forall (fun k => (k < 10)%N) l2 ->
  String.compare (digits_string l1) (digits_string l2)
  = N.compare (horner l1 0) (horner l2 0).
Proof.
  revert l2; induction l1 as [|a l1 IH]; intros [|b l2] Hlen H1 H2;
    try discriminate.
  - reflexivity.
  - injection Hlen as Hlen. inversion H1 as [|? ? Ha H1']; subst.
    inversion H2 as [|? ? Hb H2']; subst.
    simpl digits_string. simpl String.compare.
    rewrite digit_char_compare by assumption.
    simpl horner. rewrite (horner_acc l1), (horner_acc l2), <- Hlen.
    pose proof (horner_bound l1 H1') as B1.
    pose proof (horner_bound l2 H2') as B2. rewrite <- Hlen in B2.
    destruct (N.compare_spec a b) as [-> | Hlt | Hgt].
    + rewrite IH by assumption. symmetry. apply N_add_compare_l.
    + symmetry. apply N.compare_lt_iff. nia.
    + symmetry. apply N.compare_gt_iff. nia.
Qed.

Lemma str_digits (a : Z) :
  (0 <= a)%Z ->
  PyStr.str a = digits_string (digits (N.to_uint (Z.to_N a))).
Proof.
  intros Ha. unfold PyStr.str. destruct a as [|p|p]; [reflexivity| |lia].
  simpl. rewrite <- string_of_digits.
  pose proof (DecimalPos.Unsigned.to_uint_nonnil p) as Hn.
  destruct (Pos.to_uint p); [congruence|..]; reflexivity.
Qed.

Lemma digits_string_length (l : list N) :
  String.length (digits_string l) = length l.
Proof. induction l; simpl; auto. Qed.

Lemma digits_value (n : N) : horner (digits (N.to_uint n)) 0 = n.
Proof. rewrite <- of_uint_horner. apply DecimalN.Unsigned.of_to. Qed.

(** [str] of an [int] is never the empty string. *)
Lemma str_nonempty (n : Z) : exists c s, PyStr.str n = String c s.
Proof.
  unfold PyStr.str. destruct n as [|p|p]; simpl.
  - eauto.
  - destruct (Pos.to_uint p); simpl; eauto.
  - eauto.
Qed.

End Digits.

(** X1.  For two non-negative ids whose decimal forms have the same number
    of digits, the test [str(tweet.id) > last_tweet_id] of line 305 is the
    comparison of the numbers. *)
Theorem same_length_ids_compare_numerically (a b : Z) :
  (0 <= a)%Z -> (0 <= b)%Z ->
  String.length (PyStr.str a) = String.length (PyStr.str b) ->
  PyStr.gt (PyStr.str a) (PyStr.str b) = (b <? a)%Z.
Proof.
  intros Ha Hb Hlen. unfold PyStr.gt, String.ltb.
  rewrite (str_digits a Ha), (str_digits b Hb) in *.
  rewrite !digits_string_length in Hlen.
  rewrite digits_string_compare by (auto using digits_small).
  rewrite !digits_value.
  rewrite <- (Z2N.id a Ha) at 2. rewrite <- (Z2N.id b Hb) at 2.
  rewrite <- N2Z.inj_compare. unfold Z.ltb. reflexivity.
Qed.

Lemma same_length_ids_compare_numerically_witness :
  PyStr.gt (PyStr.str 1234567890123456790) (PyStr.str 1234567890123456789)
  = true.
Proof.
  rewrite same_length_ids_compare_numerically;
    [reflexivity | lia | lia | reflexivity].
Defined.

(** ** More on one pass *)

Section PassFacts.

Variables (w : world) (cfg : config) (st : state) (username : string).

Lemma pass_ids_other (v : string) :
  v <> username ->
  last_tweet_ids (snd (process_new_tweets w cfg st username)) !! v
  = last_tweet_ids st !! v.
Proof.
  intros Hv. destruct (processed w cfg st username) as [|p ps] eqn:E.
  - rewrite process_new_tweets_idle by exact E. reflexivity.
  - rewrite process_new_tweets_busy by (rewrite E; discriminate).
    simpl. rewrite post_all_other by exact Hv. reflexivity.
Qed.

Lemma idle_pass_ids :
  processed w cfg st username = [] ->
  last_tweet_ids (snd (process_new_tweets w cfg st username))
  = last_tweet_ids st.
Proof. intros E. rewrite process_new_tweets_idle by exact E. reflexivity. Qed.

Lemma idle_pass_file :
  processed w cfg st username = [] ->
  last_tweet_file (snd (process_new_tweets w cfg st username))
  = last_tweet_file st.
Proof. intros E. rewrite process_new_tweets_idle by exact E. reflexivity. Qed.

(** What is selected was fetched. *)
Lemma selected_fetched (t : tweet) :
  In t (selected w cfg st username) -> In t (fetched w cfg st username).
Proof.
  unfold selected, select_new_tweets.
  destruct (last_tweet_ids st !! username) as [[|c s]|].
  - destruct (fetched w cfg st username) as [|first rest]; simpl; tauto.
  - rewrite filter_In. tauto.
  - destruct (fetched w cfg st username) as [|first rest]; simpl; tauto.
Qed.

Lemma processed_kept (t : tweet) :
  In t (processed w cfg st username) ->
  In t (selected w cfg st username) /\ is_mention_or_retweet t = false.
Proof.
  unfold processed, filter_tweets. rewrite filter_In, negb_true_iff. tauto.
Qed.

End PassFacts.

Lemma has_bookmark_insert (st : state) (username : string) (n : Z)
    (m : gmap string string) :
  last_tweet_ids st = <[username := PyStr.str n]> m ->
  has_bookmark st username = true.
Proof.
  intros E. unfold has_bookmark. rewrite E, lookup_insert_eq.
  destruct (str_nonempty n) as (c & s & ->). reflexivity.
Qed.

(** X2.  Once a pass has processed a tweet for an account, the entry of
    that account is a non-empty string, and no pass for any account makes
    an entry empty or removes it: the first-run branch of line 307 is
    taken for an account only until its first processed tweet. *)
Theorem bookmark_once_set_stays_set (w : world) (cfg : config) (st : state)
    (username v : string) :
  has_bookmark st v = true
  \/ (v = username /\ processed w cfg st username <> []) ->
  has_bookmark (snd (process_new_tweets w cfg st username)) v = true.
Proof.
  intros H.
  destruct (processed w cfg st username) as [|p ps] eqn:E.
  - destruct H as [H | [_ H]]; [|congruence].
    unfold has_bookmark in *.
    rewrite (idle_pass_ids w cfg st username E). exact H.
  - destruct (decide (v = username)) as [-> | Hne].
    + assert (Hl : exists done t, p :: ps = done ++ [t]).
      { destruct (last (p :: ps)) as [t|] eqn:Hlast.
        - apply last_Some in Hlast. destruct Hlast as [done Hd]. eauto.
        - apply last_None in Hlast. discriminate. }
      destruct Hl as (done & t & Hd). rewrite Hd in E.
      apply (has_bookmark_insert _ username (tweet_id t) (last_tweet_ids st)).
      exact (busy_pass_ids w cfg st username done t E).
    + destruct H as [H | [H _]]; [|congruence].
      unfold has_bookmark in *.
      rewrite (pass_ids_other w cfg st username v Hne). exact H.
Qed.

Lemma bookmark_once_set_stays_set_witness :
  has_bookmark
    (snd (process_new_tweets (Sample.calm [Sample.t7; Sample.t6])
            Sample.cfg (init FileMissing) "alice")) "alice" = true.
Proof.
  apply bookmark_once_set_stays_set. right.
  split; [reflexivity | discriminate].
Defined.

(** X3.  Every text a pass hands to the publish adapter is the unchanged
    [full_text] of a tweet the fetch returned and the filter kept: a
    retweet, a mention or a short quote is never sent, and no text is
    rewritten. *)
Theorem only_kept_fetched_tweets_are_sent (w : world) (cfg : config)
    (st : state) (username : string) :
  exists sent,
    sent_texts (log (snd (process_new_tweets w cfg st username)))
    = sent_texts (log st) ++ map full_text sent
    /\ sublist sent (fetched w cfg st username)
    /\ (forall t, In t sent -> is_mention_or_retweet t = false).
Proof.
  exists (processed w cfg st username). split; [apply pass_sent_texts|].
  split.
  - unfold processed, filter_tweets.
    transitivity (selected w cfg st username); [apply filter_sublist|].
    unfold selected, select_new_tweets.
    destruct (last_tweet_ids st !! username) as [[|c s]|];
      destruct (fetched w cfg st username) as [|first rest];
      try apply filter_sublist; try constructor;
      apply sublist_nil_l.
  - intros t Ht. exact (proj2 (processed_kept w cfg st username t Ht)).
Qed.

(** X4.  With no entry for the account (or an empty one) a pass hands at
    most one text to the publish adapter, whatever the fetch returned. *)
Theorem first_pass_sends_at_most_one (w : world) (cfg : config) (st : state)
    (username : string) :
  has_bookmark st username = false ->
  length (sent_texts (log (snd (process_new_tweets w cfg st username))))
  <= length (sent_texts (log st)) + 1.
Proof.
  intros Hb. rewrite pass_sent_texts, length_app, length_map.
  apply Nat.add_le_mono_l.
  unfold processed, filter_tweets, selected, select_new_tweets.
  unfold has_bookmark in Hb.
  destruct (last_tweet_ids st !! username) as [[|c s]|]; try discriminate;
    destruct (fetched w cfg st username) as [|first rest]; simpl;
    try lia; destruct (negb (is_mention_or_retweet first)); simpl; lia.
Qed.

Lemma first_pass_sends_at_most_one_witness :
  length (sent_texts
            (log (snd (process_new_tweets
                         (Sample.calm [Sample.t7; Sample.t6; Sample.t5])
                         Sample.cfg (init FileMissing) "alice"))))
  <= length (sent_texts (log (init FileMissing))) + 1.
Proof. apply first_pass_sends_at_most_one. reflexivity. Defined.

(** ** The returned count *)

Lemma post_all_published (w : world) (username : string) (l : list tweet)
    (n : nat) (st : state) :
  length (published_texts (log (snd (post_all w username l n st)))) + n
  = length (published_texts (log st)) + fst (post_all w username l n st).
Proof.
  revert n st; induction l as [|t l IH]; intros n st.
  - simpl. lia.
  - rewrite post_all_cons.
    specialize (IH (if posted w st t then S n else n)
                   (after_turn w username st t)).
    assert (Hlog : length (published_texts
                             (log (after_turn w username st t)))
                   = length (published_texts (log st))
                     + (if posted w st t then 1 else 0)).
    { unfold after_turn, posted, post_to_bluesky. simpl.
      rewrite published_texts_app, length_app.
      destruct (send_post w (now st) (full_text t)); reflexivity. }
    destruct (posted w st t); lia.
Qed.

Lemma pass_published_count (w : world) (cfg : config) (st : state)
    (username : string) :
  length (published_texts (log (snd (process_new_tweets w cfg st username))))
  = length (published_texts (log st))
    + fst (process_new_tweets w cfg st username)
  /\ fst (process_new_tweets w cfg st username)
     <= length (processed w cfg st username).
Proof.
  destruct (processed w cfg st username) as [|p ps] eqn:E.
  - rewrite process_new_tweets_idle by exact E. simpl.
    rewrite published_texts_app. simpl. rewrite app_nil_r. lia.
  - rewrite process_new_tweets_busy by (rewrite E; discriminate).
    rewrite E.
    pose proof (post_all_published w username (p :: ps) 0
                  (after_fetch w cfg st username)) as H.
    pose proof (post_all_count w username (p :: ps) 0
                  (after_fetch w cfg st username)) as Hc.
    rewrite after_fetch_log, published_texts_app in H.
    remember (post_all w username (p :: ps) 0
                (after_fetch w cfg st username)) as r eqn:Hr.
    unfold _save_last_tweet_ids. simpl.
    rewrite published_texts_app. simpl. rewrite app_nil_r.
    simpl in H, Hc. rewrite app_nil_r in H. split; lia.
Qed.

(** X5.  The number a pass returns is the number of texts it published
    (calls of the publish adapter that returned), and at most the number
    of tweets left after the filter. *)
Theorem returned_count_is_published (w : world) (cfg : config) (st : state)
    (username : string) :
  length (published_texts (log (snd (process_new_tweets w cfg st username))))
  = length (published_texts (log st))
    + fst (process_new_tweets w cfg st username)
  /\ fst (process_new_tweets w cfg st username)
     <= length (processed w cfg st username).
Proof. apply pass_published_count. Qed.

(** ** A poll that finds nothing newer *)

(** X6.  After a pass whose last processed tweet is [t], a later pass for
    the same account whose fetch returns no tweet with a greater id string
    than [t] calls neither the publish adapter nor the bookmark file,
    returns 0 and leaves the mapping and the file as they are. *)
Theorem nothing_newer_nothing_sent (w w' : world) (cfg : config) (st : state)
    (username : string) (done : list tweet) (t : tweet) :
  processed w cfg st username = done ++ [t] ->
  (forall t',
      In t' (fetched w' cfg (snd (process_new_tweets w cfg st username))
               username) ->
      PyStr.gt (PyStr.str (tweet_id t')) (PyStr.str (tweet_id t)) = false) ->
  process_new_tweets w' cfg (snd (process_new_tweets w cfg st username))
    username
  = (0, after_fetch w' cfg (snd (process_new_tweets w cfg st username))
          username).
Proof.
  intros E Hold. apply process_new_tweets_idle.
  unfold processed, selected.
  rewrite (busy_pass_ids w cfg st username done t E), lookup_insert_eq.
  destruct (str_nonempty (tweet_id t)) as (c & s & Hs).
  rewrite Hs in *. unfold select_new_tweets.
  set (tweets := fetched w' cfg _ username) in *.
  assert (Hnone : List.filter
                    (fun t0 => PyStr.gt (PyStr.str (tweet_id t0)) (String c s))
                    tweets = []).
  { clearbody tweets. induction tweets as [|x xs IH]; [reflexivity|].
    simpl. rewrite (Hold x) by (left; reflexivity).
    apply IH. intros t' Ht'. apply Hold. right. exact Ht'. }
  rewrite Hnone. reflexivity.
Qed.

Lemma nothing_newer_nothing_sent_witness :
  let w := Sample.calm [Sample.t5; Sample.t6; Sample.t7] in
  process_new_tweets w Sample.cfg
    (snd (process_new_tweets w Sample.cfg Sample.at5 "alice")) "alice"
  = (0, after_fetch w Sample.cfg
          (snd (process_new_tweets w Sample.cfg Sample.at5 "alice")) "alice").
Proof.
  apply (nothing_newer_nothing_sent
           (Sample.calm [Sample.t5; Sample.t6; Sample.t7])
           (Sample.calm [Sample.t5; Sample.t6; Sample.t7])
           Sample.cfg Sample.at5 "alice" [Sample.t6] Sample.t7).
  - reflexivity.
  - intros t' [<- | [<- | [<- | []]]]; reflexivity.
Defined.

(** ** The loops *)

Section Loops.

Variables (w : world) (cfg : config).

Lemma for_each_user_skip (user : option string) (rest : list (option string))
    (total : nat) (st : state) :
  valid_usernames [user] = [] ->
  for_each_user w cfg (user :: rest) total st
  = for_each_user w cfg rest total st.
Proof. destruct user as [[|c name]|]; [reflexivity | discriminate | reflexivity]. Qed.

Lemma valid_usernames_cons (c : ascii) (name : string)
    (rest : list (option string)) :
  valid_usernames (Some (String c name) :: rest)
  = String c name :: valid_usernames rest.
Proof. reflexivity. Qed.

(** A property of states kept by the passes of a loop is kept by the loop. *)
Lemma for_each_user_keeps (P : state -> Prop) (users : list (option string)) :
  (forall st username,
      In username (valid_usernames users) -> P st ->
      P (snd (process_new_tweets w cfg st username))) ->
  forall total st, P st -> P (snd (for_each_user w cfg users total st)).
Proof.
  induction users as [|user rest IH]; intros Hpass total st H.
  - exact H.
  - destruct user as [[|c name]|]; try exact (IH Hpass total st H).
    rewrite for_each_user_cons. apply IH.
    + intros s u Hu. apply Hpass. right. exact Hu.
    + apply Hpass; [left; reflexivity | exact H].
Qed.

Lemma run_once_keeps (P : state -> Prop) :
  (forall st username,
      In username (valid_usernames (target_users cfg)) -> P st ->
      P (snd (process_new_tweets w cfg st username))) ->
  forall st, P st -> P (run_once w cfg st).
Proof.
  intros Hpass st H. unfold run_once.
  destruct (target_users cfg) as [|user rest] eqn:E; [exact H|].
  apply for_each_user_keeps; assumption.
Qed.

Lemma run_keeps (P : state -> Prop) :
  (forall st username,
      In username (valid_usernames (target_users cfg)) -> P st ->
      P (snd (process_new_tweets w cfg st username))) ->
  forall cycles st, P st -> P (run cycles w cfg st).
Proof.
  intros Hpass cycles. induction cycles as [|n IH]; intros st H.
  - exact H.
  - simpl. apply IH. apply run_once_keeps; assumption.
Qed.

Lemma run_once_users (st : state) :
  run_once w cfg st = snd (for_each_user w cfg (target_users cfg) 0 st).
Proof. unfold run_once. destruct (target_users cfg); reflexivity. Qed.

End Loops.

Lemma init_in_sync (f : file_state) : in_sync (init f).
Proof. unfold in_sync, init. destruct f; reflexivity. Qed.

Lemma pass_in_sync (w : world) (cfg : config) (st : state)
    (username : string) :
  (forall time, write_file w time = Saved) ->
  in_sync st -> in_sync (snd (process_new_tweets w cfg st username)).
Proof.
  intros Hw Hs. unfold in_sync in *.
  destruct (processed w cfg st username) as [|p ps] eqn:E.
  - rewrite (idle_pass_ids w cfg st username E),
      (idle_pass_file w cfg st username E). exact Hs.
  - rewrite busy_pass_file by (rewrite E; discriminate).
    rewrite Hw. reflexivity.
Qed.

(** X7.  As long as every write of the bookmark file succeeds, a process
    started from what the file holds after any number of cycles would
    load exactly the mapping the running process holds: nothing recorded
    is lost by a restart. *)
Theorem restart_loads_recorded_ids (w : world) (cfg : config)
    (cycles : nat) (f : file_state) :
  (forall time, write_file w time = Saved) ->
  last_tweet_ids (init (last_tweet_file (run cycles w cfg (init f))))
  = last_tweet_ids (run cycles w cfg (init f)).
Proof.
  intros Hw.
  assert (Hs : in_sync (run cycles w cfg (init f))).
  { apply run_keeps.
    - intros st username _. apply pass_in_sync. exact Hw.
    - apply init_in_sync. }
  unfold in_sync in Hs. unfold init at 1. simpl. rewrite Hs. reflexivity.
Qed.

Lemma restart_loads_recorded_ids_witness :
  last_tweet_ids
    (init (last_tweet_file
             (run 3 Sample.growing Sample.cfg (init FileMissing))))
  = last_tweet_ids (run 3 Sample.growing Sample.cfg (init FileMissing)).
Proof. apply restart_loads_recorded_ids. intros time. reflexivity. Defined.

(** X8.  With no entry of [target_users] that has a non-empty username
    (in particular with an empty list) neither [run_once] nor any number of
    turns of [run] calls anything or changes anything. *)
Theorem no_valid_account_no_call (w : world) (cfg : config) (cycles : nat)
    (st : state) :
  valid_usernames (target_users cfg) = [] ->
  run_once w cfg st = st /\ run cycles w cfg st = st.
Proof.
  intros Hv.
  assert (Hskip : forall users total s,
             valid_usernames users = [] ->
             for_each_user w cfg users total s = (total, s)).
  { induction users as [|user rest IH]; intros total s H; [reflexivity|].
    destruct user as [[|c name]|]; try discriminate; simpl in *; auto. }
  assert (Honce : forall s, run_once w cfg s = s).
  { intros s. rewrite run_once_users, Hskip by exact Hv. reflexivity. }
  split; [apply Honce|].
  induction cycles as [|n IH]; [reflexivity|].
  simpl. rewrite Honce. exact IH.
Qed.

Lemma no_valid_account_no_call_witness :
  run_once (Sample.calm [Sample.t7])
    {| max_tweets_per_check := None; target_users := [None; Some ""] |}
    Sample.at5 = Sample.at5.
Proof.
  apply (no_valid_account_no_call (Sample.calm [Sample.t7])
           {| max_tweets_per_check := None; target_users := [None; Some ""] |}
           0 Sample.at5).
  reflexivity.
Defined.

(** ** What a cycle asks, touches and counts *)

Lemma timeline_calls_app (l1 l2 : list event) :
  timeline_calls (l1 ++ l2) = timeline_calls l1 ++ timeline_calls l2.
Proof.
  induction l1 as [|ev l1 IH]; [reflexivity|].
  destruct ev; simpl; rewrite IH; reflexivity.
Qed.

Lemma post_all_timeline_calls (w : world) (username : string)
    (l : list tweet) (n : nat) (st : state) :
  timeline_calls (log (snd (post_all w username l n st)))
  = timeline_calls (log st).
Proof.
  revert n st; induction l as [|t l IH]; intros n st; [reflexivity|].
  rewrite post_all_cons, IH. unfold after_turn, post_to_bluesky. simpl.
  rewrite timeline_calls_app. simpl. apply app_nil_r.
Qed.

Lemma pass_timeline_calls (w : world) (cfg : config) (st : state)
    (username : string) :
  timeline_calls (log (snd (process_new_tweets w cfg st username)))
  = timeline_calls (log st) ++ [(username, max_tweets cfg)].
Proof.
  destruct (processed w cfg st username) as [|p ps] eqn:E.
  - rewrite idle_pass_log by exact E. rewrite timeline_calls_app.
    reflexivity.
  - rewrite process_new_tweets_busy by (rewrite E; discriminate).
    unfold _save_last_tweet_ids. simpl log.
    rewrite timeline_calls_app, post_all_timeline_calls, after_fetch_log,
      timeline_calls_app.
    simpl. rewrite app_nil_r. reflexivity.
Qed.

Lemma for_each_user_timeline_calls (w : world) (cfg : config)
    (users : list (option string)) (total : nat) (st : state) :
  timeline_calls (log (snd (for_each_user w cfg users total st)))
  = timeline_calls (log st)
    ++ map (fun username => (username, max_tweets cfg))
           (valid_usernames users).
Proof.
  revert total st; induction users as [|user rest IH]; intros total st.
  - simpl. rewrite app_nil_r. reflexivity.
  - destruct user as [[|c name]|]; try exact (IH total st).
    rewrite for_each_user_cons, IH, pass_timeline_calls,
      valid_usernames_cons.
    simpl. rewrite <- app_assoc. reflexivity.
Qed.

(** X9.  For a configuration of the documented shape (see [config]: the
    [monitor] block absent or a mapping, [max_tweets_per_check] absent or
    an integer, every entry of [target_users] a mapping), one cycle calls
    the fetch adapter exactly once for every entry with a non-empty
    username, in the configured order and with [max_tweets_per_check] (10
    when it is absent) as count; a failed fetch or an account without news
    does not stop the loop. *)
Theorem one_fetch_per_account_in_order (w : world) (cfg : config)
    (st : state) :
  timeline_calls (log (run_once w cfg st))
  = timeline_calls (log st)
    ++ map (fun username => (username, default 10%Z (max_tweets_per_check cfg)))
           (valid_usernames (target_users cfg)).
Proof. rewrite run_once_users. apply for_each_user_timeline_calls. Qed.

(** X10.  Whatever the number of cycles, the entry of a username that is
    not among the monitored accounts is never created, changed or
    removed. *)
Theorem unmonitored_entries_untouched (w : world) (cfg : config)
    (cycles : nat) (st : state) (v : string) :
  ~ In v (valid_usernames (target_users cfg)) ->
  last_tweet_ids (run cycles w cfg st) !! v = last_tweet_ids st !! v.
Proof.
  intros Hv.
  apply (run_keeps w cfg
           (fun s => last_tweet_ids s !! v = last_tweet_ids st !! v));
    [|reflexivity].
  intros s username Hin Hs.
  rewrite pass_ids_other; [exact Hs|].
  intros ->. exact (Hv Hin).
Qed.

Lemma unmonitored_entries_untouched_witness :
  last_tweet_ids
    (run 3 Sample.growing
       {| max_tweets_per_check := None; target_users := [Some "bob"] |}
       Sample.at5) !! "alice"
  = Some "5".
Proof.
  rewrite unmonitored_entries_untouched; [reflexivity|].
  intros [H | []]. discriminate.
Defined.

(** X11.  The total the loop over the accounts reports (lines 383 and 422)
    is the number of texts published during the cycle. *)
Theorem cycle_total_is_published (w : world) (cfg : config)
    (users : list (option string)) (total : nat) (st : state) :
  fst (for_each_user w cfg users total st)
  + length (published_texts (log st))
  = total
    + length (published_texts
                (log (snd (for_each_user w cfg users total st)))).
Proof.
  revert total st; induction users as [|user rest IH]; intros total st.
  - simpl. lia.
  - destruct user as [[|c name]|]; try exact (IH total st).
    rewrite for_each_user_cons.
    specialize (IH (total + fst (process_new_tweets w cfg st (String c name)))
                   (snd (process_new_tweets w cfg st (String c name)))).
    destruct (pass_published_count w cfg st (String c name)) as [Hc _].
    lia.
Qed.

(** ** More on the filter *)

(** X12.  A tweet without listed URLs, its text being any sequence of
    code points, is excluded exactly when it carries [retweeted_status],
    or its text begins with "RT @", or its stripped text starts with "@":
    the quote test of lines 243-253 cannot exclude it, because the link
    that triggers the test is itself part of the remainder that is
    measured. *)
Theorem no_urls_only_retweet_or_mention (t : tweet) :
  entities_urls t = [] ->
  is_mention_or_retweet t
  = retweeted_status t
    || PyStr.startswith (full_text t) "RT @"
    || PyStr.startswith (PyStr.strip (full_text t)) "@".
Proof.
  intros Hurls.
  rewrite is_mention_or_retweet_rules, (quote_rule_needs_urls t Hurls).
  rewrite orb_false_r. reflexivity.
Qed.

Lemma no_urls_only_retweet_or_mention_witness :
  is_mention_or_retweet
    (Sample.plain 9 (Sample.konnichiwa ++ PyStr.lit " https://x.com/bob/status/1"))
  = false.
Proof.
  rewrite no_urls_only_retweet_or_mention; reflexivity.
Defined.

(** X13.  A tweet whose first character after any leading whitespace
    (whatever [str.strip()] removes, U+3000 included) is "@" is excluded,
    whatever follows and whatever its other fields. *)
Theorem mention_after_whitespace_excluded (t : tweet)
    (ws rest : PyStr.text) :
  forallb PyStr.isspace ws = true ->
  full_text t = ws ++ PyStr.lit "@" ++ rest ->
  is_mention_or_retweet t = true.
Proof.
  intros Hws Htext.
  rewrite is_mention_or_retweet_rules,
    (mention_rule_after_whitespace t ws rest Hws Htext), orb_true_r.
  reflexivity.
Qed.

Lemma mention_after_whitespace_excluded_witness :
  is_mention_or_retweet
    (Sample.plain 9 ([12288%N; 32%N] ++ PyStr.lit "@bob " ++ Sample.konnichiwa))
  = true.
Proof.
  apply (mention_after_whitespace_excluded _ [12288%N; 32%N]
           (PyStr.lit "bob " ++ Sample.konnichiwa));
    reflexivity.
Defined.

(** ** Construction of the object *)

(** X14.  When the [twitter] section of the configuration is present but
    null, [__init__] raises [AttributeError]; when it is a mapping and
    one of the four Twitter credentials is missing, null, empty or
    otherwise false in a test, [__init__] raises [ValueError].  In both
    cases no vendor client was called: no credential check, no Bluesky
    login. *)
Theorem missing_twitter_credential_stops_startup (sw : startup)
    (s : settings) :
  config_at_start sw = ConfigMapping s ->
  (twitter s = None -> __init__ sw = (Failed AttributeError, []))
  /\ (forall keys,
         twitter s = Some keys ->
         truthy (api_key keys) && truthy (api_secret keys)
         && truthy (access_token keys)
         && truthy (access_token_secret keys) = false ->
         __init__ sw = (Failed ValueError, [])).
Proof.
  intros Hcfg. unfold __init__, _load_config, _authenticate_twitter.
  rewrite Hcfg. split.
  - intros ->. reflexivity.
  - intros keys -> Hkeys. rewrite Hkeys. reflexivity.
Qed.

Lemma missing_twitter_credential_stops_startup_witness :
  __init__ (SampleStart.world_of (ConfigMapping SampleStart.null_twitter))
  = (Failed AttributeError, [])
  /\ __init__ (SampleStart.world_of (ConfigMapping SampleStart.no_token))
     = (Failed ValueError, []).
Proof.
  split.
  - apply (missing_twitter_credential_stops_startup
             _ SampleStart.null_twitter); reflexivity.
  - destruct (missing_twitter_credential_stops_startup
                (SampleStart.world_of (ConfigMapping SampleStart.no_token))
                SampleStart.no_token eq_refl) as [_ H].
    eapply H; reflexivity.
Defined.

(** X15.  When the configuration file cannot be read, [__init__] writes
    the default file and then raises: [ValueError] from the credential
    test (the default credentials are empty), or the error of the write
    itself.  No vendor client is called and no object is built. *)
Theorem unreadable_config_never_starts (sw : startup) :
  config_at_start sw = ConfigUnreadable ->
  __init__ sw
  = (Failed (if config_writable sw then ValueError else ConfigWriteError),
     [EvWriteDefault]).
Proof.
  intros Hcfg. unfold __init__, _load_config. rewrite Hcfg.
  destruct (config_writable sw); reflexivity.
Qed.

Lemma unreadable_config_never_starts_witness :
  __init__ (SampleStart.world_of ConfigUnreadable)
  = (Failed ValueError, [EvWriteDefault]).
Proof.
  apply (unreadable_config_never_starts
           (SampleStart.world_of ConfigUnreadable)).
  reflexivity.
Defined.

(** X16.  [__init__] returns an object exactly when the configuration
    file holds a mapping with all six credentials set and both vendor
    clients accept them; the object then holds that configuration and the
    mapping loaded from the bookmark file, and the Twitter check was made
    before the Bluesky login. *)
Theorem construction_succeeds_iff (sw : startup)
    (r : option settings * state) :
  (fst (__init__ sw) = Started r <->
   exists s,
     config_at_start sw = ConfigMapping s
     /\ credentials_set s = true
     /\ verify_credentials sw = Returned tt
     /\ login sw = Returned tt
     /\ r = (Some s, init (bookmarks_at_start sw)))
  /\ (fst (__init__ sw) = Started r ->
      snd (__init__ sw) = [EvVerifyCredentials; EvLogin]).
Proof.
  unfold __init__, _load_config, _authenticate_twitter, _authenticate_bluesky.
  destruct (config_at_start sw) as [| |s] eqn:Hcfg.
  - destruct (config_writable sw); simpl;
      (split; [split; [discriminate | intros (s0 & Hc & _); discriminate]
              | discriminate]).
  - simpl.
    split; [split; [discriminate | intros (s0 & Hc & _); discriminate]
           | discriminate].
  - unfold credentials_set.
    destruct (twitter s) as [tk|] eqn:Htk.
    2:{ simpl. split; [split; [discriminate|] | discriminate].
        intros (s0 & Hc & Hset & _). injection Hc as <-.
        rewrite Htk in Hset. discriminate. }
    destruct (truthy (api_key tk) && truthy (api_secret tk)
              && truthy (access_token tk)
              && truthy (access_token_secret tk)) eqn:Htw.
    2:{ simpl. split; [split; [discriminate|] | discriminate].
        intros (s0 & Hc & Hset & _). injection Hc as <-.
        rewrite Htk in Hset. destruct (bluesky s); [|discriminate].
        rewrite Htw in Hset. discriminate. }
    destruct (verify_credentials sw) as [[]|e] eqn:Hv.
    2:{ simpl. split; [split; [discriminate|] | discriminate].
        intros (s0 & _ & _ & Hv' & _). discriminate. }
    destruct (bluesky s) as [bk|] eqn:Hbk.
    2:{ simpl. split; [split; [discriminate|] | discriminate].
        intros (s0 & Hc & Hset & _). injection Hc as <-.
        rewrite Htk, Hbk in Hset. discriminate. }
    destruct (truthy (bluesky_username bk) && truthy (bluesky_password bk))
      eqn:Hbs.
    2:{ simpl. split; [split; [discriminate|] | discriminate].
        intros (s0 & Hc & Hset & _). injection Hc as <-.
        rewrite Htk, Hbk in Hset.
        apply andb_true_iff in Hset. destruct Hset as [Hxe Hp].
        apply andb_true_iff in Hxe. destruct Hxe as [_ Hu].
        rewrite Hu, Hp in Hbs. discriminate. }
    destruct (login sw) as [[]|e] eqn:Hl.
    2:{ simpl. split; [split; [discriminate|] | discriminate].
        intros (s0 & _ & _ & _ & Hl' & _). discriminate. }
    simpl. split; [split|reflexivity].
    + intros H. injection H as <-. exists s.
      rewrite Htk, Hbk, Htw. simpl. rewrite Hbs. auto.
    + intros (s0 & Hc & _ & _ & _ & ->). injection Hc as <-. reflexivity.
Qed.

Lemma construction_succeeds_iff_witness :
  fst (__init__ (SampleStart.world_of (ConfigMapping SampleStart.keys)))
  = Started (Some SampleStart.keys, Sample.at5).
Proof.
  apply (proj1 (construction_succeeds_iff
                  (SampleStart.world_of (ConfigMapping SampleStart.keys))
                  (Some SampleStart.keys, Sample.at5))).
  exists SampleStart.keys. repeat split; reflexivity.
Defined.

(** X17.  The Bluesky login is attempted only after the Twitter
    credentials were accepted: a failure on the Twitter side means that
    no login is made. *)
Theorem login_only_after_verification (sw : startup) :
  In EvLogin (snd (__init__ sw)) ->
  verify_credentials sw = Returned tt
  /\ exists rest, snd (__init__ sw) = rest ++ [EvVerifyCredentials; EvLogin].
Proof.
  unfold __init__, _load_config, _authenticate_twitter, _authenticate_bluesky.
  destruct (config_at_start sw) as [| |s] eqn:Hcfg.
  - destruct (config_writable sw); simpl; intros H;
      decompose [or] H; try discriminate; contradiction.
  - simpl. intros [].
  - destruct (twitter s) as [tk|]; [|simpl; intros []].
    destruct (truthy (api_key tk) && truthy (api_secret tk)
              && truthy (access_token tk)
              && truthy (access_token_secret tk)); [|simpl; intros []].
    destruct (verify_credentials sw) as [[]|e].
    2:{ simpl. intros H. decompose [or] H; try discriminate; contradiction. }
    destruct (bluesky s) as [bk|].
    2:{ simpl. intros H. decompose [or] H; try discriminate; contradiction. }
    destruct (truthy (bluesky_username bk) && truthy (bluesky_password bk)).
    2:{ simpl. intros H. decompose [or] H; try discriminate; contradiction. }
    destruct (login sw) as [[]|e]; simpl; intros _;
      (split; [reflexivity | exists []; reflexivity]).
Qed.

Lemma login_only_after_verification_witness :
  verify_credentials (SampleStart.world_of (ConfigMapping SampleStart.keys))
  = Returned tt.
Proof.
  apply login_only_after_verification. right. left. reflexivity.
Defined.
